(** * iSmart backend (server.js): a shallow embedding and its properties

    The development follows src/server.js top to bottom:
    - the runtime pieces the file calls (SHA-256, HMAC, URLSearchParams,
      JS value coercions, the arithmetic of doubles), written out so that
      the handlers evaluate;
    - [verifyTelegramInitData], the five routes and the store they talk to,
      each handler a tree with one node per [await];
    - an interleaving semantics of the handlers in flight over the one store;
    - the properties of the specification, stated on these definitions.

    Conventions.
    - A JS string is modelled by the bytes of its UTF-8 encoding ([string]).
      This is exact on ASCII text, and on any text as far as hashing and
      concatenation go; [sort] and [trim] are those of JS on ASCII text.
    - A JSON number is observed only through [String(n)] and [Boolean(n)], so
      it is represented by its [String] image.  A number read from the
      request body or the environment is an integer; the cooldown is any
      numeral, and [Number] makes it the nearest double.
    - A timestamp is an integer number of milliseconds, as in a JS [Date];
      the arithmetic of lines 92-93 is that of IEEE 754 doubles ([float64]):
      every operation gives the double nearest to the exact result.
    - What server.js imports ([JSON.parse], jsonwebtoken) and what the
      database schema decides are parameters ([Platform], [Store]); every
      property is proved for all of them. *)

From Stdlib Require Import ZArith QArith Qround Qabs Qpower SpecFloat Lia Lqa.
From Stdlib Require Import Ascii String List.
From stdpp Require Import base option list sorting strings gmap pretty.

Set Warnings "-register-all".

Local Open Scope string_scope.
Local Open Scope Z_scope.
Local Open Scope list_scope.

(* ================================================================== *)
(** * Runtime library *)

(** ** Bytes and 32-bit words *)

Definition bytes_of_string (s : string) : list Z :=
  (fun a => Z.of_N (N_of_ascii a)) <$> list_ascii_of_string s.

Definition string_of_bytes (l : list Z) : string :=
  string_of_list_ascii ((fun b => ascii_of_N (Z.to_N b)) <$> l).

Definition w32 (x : Z) : Z := x mod 2 ^ 32.

Definition add32 (x y : Z) : Z := w32 (x + y).

Definition rotr (n x : Z) : Z :=
  Z.lor (Z.shiftr x n) (w32 (Z.shiftl x (32 - n))).

Definition not32 (x : Z) : Z := Z.lxor x (2 ^ 32 - 1).

(** ** SHA-256 (FIPS 180-4), as computed by [crypto.createHash('sha256')] *)

Module SHA256.

Definition K : list Z :=
  [ 1116352408; 1899447441; 3049323471; 3921009573; 961987163; 1508970993;
    2453635748; 2870763221; 3624381080; 310598401; 607225278; 1426881987;
    1925078388; 2162078206; 2614888103; 3248222580; 3835390401; 4022224774;
    264347078; 604807628; 770255983; 1249150122; 1555081692; 1996064986;
    2554220882; 2821834349; 2952996808; 3210313671; 3336571891; 3584528711;
    113926993; 338241895; 666307205; 773529912; 1294757372; 1396182291;
    1695183700; 1986661051; 2177026350; 2456956037; 2730485921; 2820302411;
    3259730800; 3345764771; 3516065817; 3600352804; 4094571909; 275423344;
    430227734; 506948616; 659060556; 883997877; 958139571; 1322822218;
    1537002063; 1747873779; 1955562222; 2024104815; 2227730452; 2361852424;
    2428436474; 2756734187; 3204031479; 3329325298 ].

Definition H0 : list Z :=
  [ 1779033703; 3144134277; 1013904242; 2773480762;
    1359893119; 2600822924; 528734635; 1541459225 ].

Definition Ch (x y z : Z) : Z := Z.lxor (Z.land x y) (Z.land (not32 x) z).
Definition Maj (x y z : Z) : Z :=
  Z.lxor (Z.lxor (Z.land x y) (Z.land x z)) (Z.land y z).
Definition Sigma0 (x : Z) : Z := Z.lxor (Z.lxor (rotr 2 x) (rotr 13 x)) (rotr 22 x).
Definition Sigma1 (x : Z) : Z := Z.lxor (Z.lxor (rotr 6 x) (rotr 11 x)) (rotr 25 x).
Definition sigma0 (x : Z) : Z := Z.lxor (Z.lxor (rotr 7 x) (rotr 18 x)) (Z.shiftr x 3).
Definition sigma1 (x : Z) : Z := Z.lxor (Z.lxor (rotr 17 x) (rotr 19 x)) (Z.shiftr x 10).

(** Message followed by 0x80, zero bytes up to 56 mod 64, and the bit
    length as a 64-bit big-endian integer. *)
Definition be_bytes (n : nat) (x : Z) : list Z :=
  (fun i => Z.shiftr x (8 * Z.of_nat i) mod 256) <$> rev (seq 0 n).

Definition pad (msg : list Z) : list Z :=
  let len := Z.of_nat (length msg) in
  msg ++ [128] ++ replicate (Z.to_nat ((55 - len) mod 64)) 0 ++ be_bytes 8 (8 * len).

Fixpoint words (l : list Z) : list Z :=
  match l with
  | a :: b :: c :: d :: l' => (((a * 256 + b) * 256 + c) * 256 + d) :: words l'
  | _ => []
  end.

(** The message schedule is kept newest-first: [w] holds W(t-1), W(t-2), ... *)
Fixpoint schedule (n : nat) (w : list Z) : list Z :=
  match n with
  | O => w
  | S n' =>
      let at_ i := nth i w 0 in
      let wt := add32 (add32 (sigma1 (at_ 1%nat)) (at_ 6%nat))
                      (add32 (sigma0 (at_ 14%nat)) (at_ 15%nat)) in
      schedule n' (wt :: w)
  end.

Definition round (st : list Z) (kw : Z * Z) : list Z :=
  match st with
  | [a; b; c; d; e; f; g; h] =>
      let t1 := add32 (add32 (add32 h (Sigma1 e)) (add32 (Ch e f g) kw.1)) kw.2 in
      let t2 := add32 (Sigma0 a) (Maj a b c) in
      [add32 t1 t2; a; b; c; add32 d t1; e; f; g]
  | _ => st
  end.

Definition compress (h : list Z) (block : list Z) : list Z :=
  let w := rev (schedule 48 (rev (words block))) in
  zip_with add32 h (foldl round h (zip K w)).

Fixpoint blocks (fuel : nat) (h : list Z) (l : list Z) : list Z :=
  match fuel, l with
  | S fuel', _ :: _ => blocks fuel' (compress h (take 64 l)) (drop 64 l)
  | _, _ => h
  end.

Definition digest (msg : list Z) : list Z :=
  let p := pad msg in
  mjoin (be_bytes 4 <$> blocks (length p) H0 p).

End SHA256.

(** ** HMAC (RFC 2104), as computed by [crypto.createHmac('sha256', key)] *)

Definition hmac_sha256 (key msg : list Z) : list Z :=
  let k := if Z.of_nat (length key) >? 64 then SHA256.digest key else key in
  let k := k ++ replicate (64 - length k) 0 in
  SHA256.digest ((Z.lxor 92 <$> k) ++ SHA256.digest ((Z.lxor 54 <$> k) ++ msg)).

(** [digest('hex')]: two lower-case hexadecimal digits per byte. *)
Definition hex_digit (n : Z) : ascii :=
  if n <? 10 then ascii_of_N (Z.to_N (48 + n)) else ascii_of_N (Z.to_N (87 + n)).

Definition hex (l : list Z) : string :=
  string_of_list_ascii (mjoin ((fun b => [hex_digit (b / 16); hex_digit (b mod 16)]) <$> l)).

(** ** Strings *)

Definition LF : string := String "010" EmptyString.

(** [arr.join(sep)] on an array of strings. *)
Fixpoint join (sep : string) (l : list string) : string :=
  match l with
  | [] => EmptyString
  | [x] => x
  | x :: l' => x +:+ sep +:+ join sep l'
  end.

(** [s.split(c)] for a one-character separator: never the empty array. *)
Fixpoint split (c : ascii) (s : string) : list string :=
  match s with
  | EmptyString => [EmptyString]
  | String a s' =>
      if Ascii.eqb a c then EmptyString :: split c s'
      else match split c s' with
           | x :: l => String a x :: l
           | [] => [String a EmptyString]
           end
  end.

(** White space removed by [trim], on the ASCII range: TAB, LF, VT, FF, CR, SP. *)
Definition is_space (a : ascii) : bool :=
  let n := N_of_ascii a in ((9 <=? n) && (n <=? 13) || (n =? 32))%N.

Fixpoint trimStart (s : string) : string :=
  match s with
  | String a s' => if is_space a then trimStart s' else s
  | EmptyString => EmptyString
  end.

Fixpoint trimEnd (s : string) : string :=
  match s with
  | String a s' =>
      match trimEnd s' with
      | EmptyString => if is_space a then EmptyString else String a EmptyString
      | r => String a r
      end
  | EmptyString => EmptyString
  end.

Definition trim (s : string) : string := trimEnd (trimStart s).

(** [s.startsWith(p)] and [s.slice(n)]. *)
Definition startsWith (p s : string) : bool := String.prefix p s.

Fixpoint slice (n : nat) (s : string) : string :=
  match n, s with
  | S n', String _ s' => slice n' s'
  | _, _ => s
  end.

(** The order of [Array.prototype.sort] without a comparator: code units,
    left to right, a proper prefix first. *)
Definition str_le (a b : string) : Prop := String.leb a b = true.

#[global] Instance str_le_dec : RelDecision str_le.
Proof. intros a b. unfold str_le. apply _. Defined.

Definition sort (l : list string) : list string := merge_sort str_le l.

(** ** URLSearchParams (the application/x-www-form-urlencoded parser) *)

Definition hex_value (a : ascii) : option Z :=
  let n := Z.of_N (N_of_ascii a) in
  if (48 <=? n) && (n <=? 57) then Some (n - 48)
  else if (65 <=? n) && (n <=? 70) then Some (n - 55)
  else if (97 <=? n) && (n <=? 102) then Some (n - 87)
  else None.

(** [+] becomes a space; [%XY] with two hexadecimal digits becomes the byte
    XY; any other byte stands for itself. *)
Fixpoint form_decode (s : string) : string :=
  match s with
  | EmptyString => EmptyString
  | String "+" s' => String " " (form_decode s')
  | String "%" (String h (String l s') as t) =>
      match hex_value h, hex_value l with
      | Some x, Some y => String (ascii_of_N (Z.to_N (16 * x + y))) (form_decode s')
      | _, _ => String "%" (form_decode t)
      end
  | String a s' => String a (form_decode s')
  end.

(** The text of a field up to its first [=] is the name, the rest the value. *)
Fixpoint cut_eq (s : string) : string * string :=
  match s with
  | EmptyString => (EmptyString, EmptyString)
  | String a s' =>
      if Ascii.eqb a "=" then (EmptyString, s')
      else let '(k, v) := cut_eq s' in (String a k, v)
  end.

Definition URLSearchParams (init : string) : list (string * string) :=
  let init := match init with String "?" s => s | _ => init end in
  (fun f => let '(k, v) := cut_eq f in (form_decode k, form_decode v))
    <$> filter (fun f => f <> EmptyString) (split "&" init).

(** ** Objects with string values

    Own properties in insertion order; assigning an existing key keeps its
    place and replaces its value. *)

Abbreviation Obj A := (list (string * A)) (only parsing).

Fixpoint obj_set {A} (k : string) (v : A) (o : Obj A) : Obj A :=
  match o with
  | [] => [(k, v)]
  | (k', v') :: o' => if String.eqb k' k then (k, v) :: o' else (k', v') :: obj_set k v o'
  end.

Fixpoint obj_get {A} (k : string) (o : Obj A) : option A :=
  match o with
  | [] => None
  | (k', v) :: o' => if String.eqb k' k then Some v else obj_get k o'
  end.

(** The rest of a destructuring pattern: every own property but [k]. *)
Definition obj_rest {A} (k : string) (o : Obj A) : Obj A :=
  filter (fun kv => kv.1 <> k) o.

Definition Object_fromEntries {A} (entries : list (string * A)) : Obj A :=
  foldl (fun o kv => obj_set kv.1 kv.2 o) [] entries.

(** The names in insertion order.  (JS lists names that are array indices
    first; the one use of [Object.keys], line 27, sorts the result.) *)
Definition Object_keys {A} (o : Obj A) : list string := o.*1.

(** ** Completions: a value, or a thrown exception *)

Inductive JsError := SyntaxError | TypeError.

Inductive completion (A : Type) : Type :=
| Normal (a : A)
| Throw (e : JsError).
Arguments Normal {A} a.
Arguments Throw {A} e.

#[global] Instance completion_ret : MRet completion := fun A a => Normal a.
#[global] Instance completion_bind : MBind completion :=
  fun A B f m => match m with Normal a => f a | Throw e => Throw e end.

(** ** JSON values and the coercions the server applies to them *)

(** A number is kept as its [String(n)] image (so [-0] and [0] are both "0"). *)
Inductive JsValue :=
| JNull
| JBool (b : bool)
| JNum (repr : string)
| JStr (s : string)
| JArr (elems : list JsValue)
| JObj (props : list (string * JsValue)).

(** [v.name] for a name that no prototype defines ([id], [first_name], ...):
    the own property of an object, [undefined] ([None]) on any other value,
    and a TypeError on [null]. *)
Definition get_prop (v : JsValue) (name : string) : completion (option JsValue) :=
  match v with
  | JNull => Throw TypeError
  | JObj props => Normal (obj_get name (Object_fromEntries props))
  | _ => Normal None
  end.

(** [Boolean(v)]. *)
Definition truthy (v : option JsValue) : bool :=
  match v with
  | None | Some JNull => false
  | Some (JBool b) => b
  | Some (JNum repr) => negb (String.eqb repr "0")
  | Some (JStr s) => negb (String.eqb s EmptyString)
  | Some (JArr _) | Some (JObj _) => true
  end.

(** [String(v)] on a defined value.  An array joins its elements with commas,
    [null] elements printing as nothing.  An object prints through
    [Object.prototype.toString], unless it has an own [toString] property:
    a JSON value is never callable, and the conversion throws. *)
Fixpoint ToString (v : JsValue) : completion string :=
  match v with
  | JNull => Normal "null"
  | JBool true => Normal "true"
  | JBool false => Normal "false"
  | JNum repr => Normal repr
  | JStr s => Normal s
  | JArr elems =>
      (fix go (l : list JsValue) : completion string :=
         match l with
         | [] => Normal EmptyString
         | x :: l' =>
             match (match x with JNull => Normal EmptyString | _ => ToString x end) with
             | Throw e => Throw e
             | Normal sx =>
                 match l' with
                 | [] => Normal sx
                 | _ => match go l' with
                        | Throw e => Throw e
                        | Normal sl => Normal (sx +:+ "," +:+ sl)
                        end
                 end
             end
         end) elems
  | JObj props =>
      match obj_get "toString" (Object_fromEntries props) with
      | Some _ => Throw TypeError
      | None => Normal "[object Object]"
      end
  end.

(** [String(v)] where [v] may be [undefined]. *)
Definition String_ (v : option JsValue) : completion string :=
  match v with
  | None => Normal "undefined"
  | Some v => ToString v
  end.

(** ** Numbers: IEEE 754 binary64 *)

(** A double is a sign and a magnitude, an infinity, or NaN; the magnitude of
    a finite double is kept as the rational it is.  The operations are those
    of IEEE 754 in the default rounding: the exact result, then the nearest
    double, a tie going to the even one. *)
Inductive float64 :=
| Finite (negative : bool) (magnitude : Q)
| Infinity (negative : bool)
| NaN.

Definition pow2 (k : Z) : Q := (2 ^ k)%Q.

(** The integer [k] with [2^k <= a < 2^(k+1)], for [0 < a]. *)
Definition ilog2 (a : Q) : Z :=
  if Qle_bool 1 a then Z.log2 (Qfloor a) else - Z.log2_up (Qceiling (/ a)).

(** The nearest integer, a tie going to the even one. *)
Definition round_half_even (x : Q) : Z :=
  let f := Qfloor x in
  match (x - inject_Z f ?= 1 # 2)%Q with
  | Lt => f
  | Gt => f + 1
  | Eq => if Z.even f then f else f + 1
  end.

(** The double nearest to a magnitude [a]: 53 significant bits, no exponent
    of the last place under -1074, an infinity from 2^1024 on. *)
Definition round_f64 (negative : bool) (a : Q) : float64 :=
  if Qeq_bool a 0 then Finite negative 0
  else
    let e := Z.max (ilog2 a - 52) (-1074) in
    let r := (inject_Z (round_half_even (a / pow2 e)) * pow2 e)%Q in
    if Qle_bool (pow2 1024) r then Infinity negative else Finite negative r.

Definition f64_value (negative : bool) (magnitude : Q) : Q :=
  if negative then (- magnitude)%Q else magnitude.

(** [Number(...)] of a numeral: the double nearest to the number it denotes. *)
Definition Number_ (q : Q) : float64 := round_f64 (negb (Qle_bool 0 q)) (Qabs q).

(** [x - y].  An exact zero difference is +0, but for (-0) - (+0). *)
Definition f64_sub (x y : float64) : float64 :=
  match x, y with
  | NaN, _ | _, NaN => NaN
  | Infinity s, Infinity t => if Bool.eqb s t then NaN else Infinity s
  | Infinity s, Finite _ _ => Infinity s
  | Finite _ _, Infinity t => Infinity (negb t)
  | Finite s a, Finite t b =>
      let d := (f64_value s a - f64_value t b)%Q in
      if Qeq_bool d 0 then Finite (s && negb t) 0
      else round_f64 (negb (Qle_bool 0 d)) (Qabs d)
  end.

(** [x / y]. *)
Definition f64_div (x y : float64) : float64 :=
  match x, y with
  | NaN, _ | _, NaN => NaN
  | Infinity _, Infinity _ => NaN
  | Infinity s, Finite t _ => Infinity (xorb s t)
  | Finite s _, Infinity t => Finite (xorb s t) 0
  | Finite s a, Finite t b =>
      if Qeq_bool b 0
      then if Qeq_bool a 0 then NaN else Infinity (xorb s t)
      else round_f64 (xorb s t) (a / b)
  end.

(** [x < y]. *)
Definition f64_ltb (x y : float64) : bool :=
  match x, y with
  | NaN, _ | _, NaN => false
  | Infinity s, Infinity t => s && negb t
  | Infinity s, Finite _ _ => s
  | Finite _ _, Infinity t => negb t
  | Finite s a, Finite t b => negb (Qle_bool (f64_value t b) (f64_value s a))
  end.

(** [Math.ceil(x)]. *)
Definition Math_ceil (x : float64) : float64 :=
  match x with
  | Finite s a => Finite s (inject_Z (Z.abs (Qceiling (f64_value s a))))
  | _ => x
  end.

(** The magnitude of a double is a multiple of 2^-1074. *)
Definition on_grid (r : Q) : Prop := exists M : Z, (r == inject_Z M * pow2 (-1074))%Q.

(** The same operations as the Standard Library specifies them ([SpecFloat],
    at precision 53 and maximal exponent 1024), to compare with: the double
    nearest to [m * 2^e] in both forms, and whether rounding, division,
    subtraction and comparison agree on two such doubles. *)
Module IEEE.

Definition of_spec_float (x : spec_float) : float64 :=
  match x with
  | S754_zero s => Finite s 0
  | S754_infinity s => Infinity s
  | S754_nan => NaN
  | S754_finite s m e => Finite s (inject_Z (Z.pos m) * pow2 e)
  end.

Definition same (x y : float64) : bool :=
  match x, y with
  | Finite s a, Finite t b => Bool.eqb s t && Qeq_bool a b
  | Infinity s, Infinity t => Bool.eqb s t
  | NaN, NaN => true
  | _, _ => false
  end.

Definition spec_of (x : Z * Z) : spec_float := binary_normalize 53 1024 (fst x) (snd x) false.

Definition f64_of (x : Z * Z) : float64 := Number_ (inject_Z (fst x) * pow2 (snd x)).

Definition agree (x y : Z * Z) : bool :=
  same (of_spec_float (spec_of x)) (f64_of x)
  && same (of_spec_float (SFdiv 53 1024 (spec_of x) (spec_of y)))
          (f64_div (f64_of x) (f64_of y))
  && same (of_spec_float (SFsub 53 1024 (spec_of x) (spec_of y)))
          (f64_sub (f64_of x) (f64_of y))
  && Bool.eqb (SFltb (spec_of x) (spec_of y)) (f64_ltb (f64_of x) (f64_of y)).

(** Zero, small integers, 2.2 and 0.1, integers around 2^53, the least and
    the greatest doubles and what lies just beyond them, two dates. *)
Definition samples : list (Z * Z) :=
  [(0, 0); (1, 0); (10, 0); (1000, 0); (-1200, 0); (4953959590107546, -51);
   (7205759403792794, -56); (9007199254740993, 0); (-9007199254740995, 1);
   (3, -1075); (1, -1075); (9007199254740991, 971); (-1, 1024);
   (1700000000000, 0); (1699999998800, 0)].

End IEEE.

(** ** What the process is linked against and configured with *)

(** [JSON.parse] ([None]: a SyntaxError) and the two [jsonwebtoken] calls the
    server makes; both of the latter read the clock. *)
Class Platform := {
  JSON_parse : string -> option JsValue;
  jwt_sign : string -> Z -> string -> string;
  jwt_verify : string -> Z -> option string -> option string;
}.

(** [process.env].  A numeric variable is given by the number its text
    denotes, [None] when unset or empty; the integer ones are their own
    [Number(...)], that of the cooldown is [Number_] of it. *)
Record Env := {
  BOT_TOKEN : string;
  JWT_SECRET : string;
  COOLDOWN_SEC : option Q;
  REWARD_PER_AD : option Z;
  COINS_PER_USDT : option Z;
  MIN_WITHDRAW_USDT : option Z;
  ADMIN_IDS : option string;
}.

(** What the tables of the store supply on their own.  The schema is not part
    of server.js: the balance of a row the server creates without naming one
    and the key given to a new withdraw request are left open, as is the text
    of the error of a [single()] that finds no row. *)
Class Store := {
  default_balance : option Z;
  new_request_id : nat -> string;
  single_no_rows : string;
}.

(** [x | 0]: the signed 32-bit integer congruent to an integer [x]. *)
Definition ToInt32 (x : Z) : Z := (x + 2 ^ 31) mod 2 ^ 32 - 2 ^ 31.

(* ================================================================== *)
(** * Data model *)

(** The object returned by [verifyTelegramInitData]. *)
Record Identity := {
  id : string;
  name : string;
  username : string;
  email : string;
}.

(** A row of [users], without its key [id].  [None] is SQL NULL. *)
Record User := {
  u_name : string;
  u_username : string;
  u_email : string;
  balance : option Z;
  last_ad_at : option Z;
}.

Record AdEvent := {
  ae_user_id : string;
  ae_reward : Z;
}.

Record WithdrawRequest := {
  wr_id : string;
  wr_user_id : string;
  wr_method : string;
  wr_account : string;
  wr_amount_coins : Z;
  wr_status : string;
}.

Record Db := {
  users : gmap string User;
  ad_events : list AdEvent;
  withdraw_requests : list WithdrawRequest;
}.

(** Modelled from the spec: the status of a withdraw request the server
    inserts without naming one (the table definition is not in server.js);
    the spec has requests "created on withdraw call with status=pending". *)
Definition default_status : string := "pending".

(** Modelled from the spec: [last_ad_at] of a user row created by the upsert
    (the table definition is not in server.js); the spec has it a "nullable
    timestamp", absent until the first reward. *)
Definition default_last_ad_at : option Z := None.

(** The columns an [update] on [users] assigns: the balance always, and
    [last_ad_at] when [Some]. *)
Record UserPatch := {
  p_balance : Z;
  p_last_ad_at : option Z;
}.

(** [{ data, error }] of a store call. *)
Inductive StoreResult (A : Type) : Type :=
| Data (a : A)
| Error (message : string).
Arguments Data {A} a.
Arguments Error {A} message.

Definition data {A} (r : StoreResult A) : option A :=
  match r with Data a => Some a | Error _ => None end.

(** ** Requests and responses *)

Inductive Body :=
| BError (error : string)
| BCooldown (left : float64)
| BAuth (token : string) (profile : option User)
| BUser (u : User)
| BBalance (balance : option Z) (last_ad_at : option Z)
| BOk
| BText (text : string).

Record Response := {
  status : Z;
  body : Body;
}.

Record WithdrawBody := {
  method : option string;
  account : option string;
  amount_coins : option Z;
}.

Inductive Request :=
| PostAuth (initData : option string)
| GetMe (authorization : option string)
| PostRewardAd (authorization : option string)
| PostWithdraw (authorization : option string) (body : WithdrawBody)
| PostAdminWithdraw (id action : string) (admin : option string)
| GetRoot.

(** ** Handlers as programs over the store

    A handler is a tree: each node is the store call (or clock reading) the
    handler is suspended on, with the code that runs when it resumes; a leaf
    is the response sent, or the exception that ends the handler without one. *)
Inductive Prog :=
| Respond (r : Response)
| Crash (e : JsError)
| NewDate (k : Z -> Prog)
| UsersUpsert (ident : Identity) (k : Prog)
| UsersSelect (uid : string) (k : StoreResult User -> Prog)
| UsersUpdate (uid : string) (patch : UserPatch) (k : option string -> Prog)
| AdEventsInsert (ev : AdEvent) (k : Prog)
| WithdrawRequestsInsert (uid meth acct : string) (amount : Z) (k : Prog)
| WithdrawRequestsUpdate (rid status : string) (k : Prog).

Definition json (st : Z) (b : Body) : Prog := Respond {| status := st; body := b |}.

(** The system: the store, the clock, and the handlers in flight. *)
Record World := {
  db : Db;
  clock : Z;
  threads : list Prog;
}.

Inductive Event :=
| Tick (ms : N)
| Arrive (req : Request)
| Resume (i : nat) (failure : option string).

(* ================================================================== *)
(** * server.js *)

Section Server.

Context {platform : Platform} {store : Store} (env : Env).

(** ** Identity verification *)

Definition SECRET_KEY : list Z := SHA256.digest (bytes_of_string (BOT_TOKEN env)).

(** [Object.keys(data).sort().map(k => `${k}=${data[k]}`).join('\n')] *)
Definition dataCheckString (data : Obj string) : string :=
  join LF ((fun k => k +:+ "=" +:+ default "undefined" (obj_get k data))
             <$> sort (Object_keys data)).

Definition signature (data : Obj string) : string :=
  hex (hmac_sha256 SECRET_KEY (bytes_of_string (dataCheckString data))).

(** [arr.join(sep)] on JS values: [null] and [undefined] print as nothing. *)
Fixpoint Array_join (sep : string) (l : list (option JsValue)) : completion string :=
  let elem v := match v with None | Some JNull => Normal EmptyString | Some x => ToString x end in
  match l with
  | [] => Normal EmptyString
  | [v] => elem v
  | v :: l' => sv ← elem v; sl ← Array_join sep l'; Normal (sv +:+ sep +:+ sl)
  end.

(** Lines 36-42: the part of [verifyTelegramInitData] after the signature
    check. *)
Definition identity_of (data : Obj string) : completion Identity :=
  let text := match obj_get "user" data with
              | Some s => if String.eqb s EmptyString then "{}" else s
              | None => "{}"
              end in
  user ← match JSON_parse text with Some v => Normal v | None => Throw SyntaxError end;
  user_id ← get_prop user "id";
  id_ ← String_ user_id;
  first_name ← get_prop user "first_name";
  last_name ← get_prop user "last_name";
  joined ← Array_join " " (filter (fun v => truthy v = true) [first_name; last_name]);
  user_username ← get_prop user "username";
  username_ ← (if truthy user_username
               then s ← String_ user_username; Normal ("@" +:+ s)
               else Normal EmptyString);
  Normal {| id := id_;
            name := if String.eqb joined EmptyString then "Guest" else joined;
            username := username_;
            email := EmptyString |}.

(** Lines 23-43, on the entries the payload decodes to; [Normal None] is the
    [null] returned on a signature mismatch. *)
Definition verifyEntries (entries : list (string * string)) : completion (option Identity) :=
  let parsed := Object_fromEntries entries in
  let hash := obj_get "hash" parsed in
  let data := obj_rest "hash" parsed in
  let hmac := signature data in
  if decide (Some hmac = hash) then u ← identity_of data; Normal (Some u)
  else Normal None.

Definition verifyTelegramInitData (initData : string) : completion (option Identity) :=
  verifyEntries (URLSearchParams initData).

(** ** Sessions (lines 46-57) *)

Definition sign (now : Z) (u : Identity) : string := jwt_sign (JWT_SECRET env) now (id u).

Definition auth (now : Z) (authorization : option string) (next : string -> Prog) : Prog :=
  let hdr := default EmptyString authorization in
  let token := if startsWith "Bearer " hdr then Some (slice 7 hdr) else None in
  match jwt_verify (JWT_SECRET env) now token with
  | Some uid => next uid
  | None => json 401 (BError "unauthorized")
  end.

(** ** Routes *)

(** 1) POST /api/auth (lines 62-75) *)
Definition post_auth (initData : option string) : Prog :=
  match initData with
  | None | Some EmptyString => json 400 (BError "missing initData")
  | Some initData =>
      match verifyTelegramInitData initData with
      | Throw e => Crash e
      | Normal None => json 401 (BError "bad signature")
      | Normal (Some user) =>
          UsersUpsert user (
          UsersSelect (id user) (fun r =>
          NewDate (fun now =>
          json 200 (BAuth (sign now user) (data r)))))
      end
  end.

(** 2) GET /api/me (lines 78-82) *)
Definition get_me (uid : string) : Prog :=
  UsersSelect uid (fun r =>
  match r with
  | Error message => json 500 (BError message)
  | Data u => json 200 (BUser u)
  end).

(** 3) POST /api/reward/ad (lines 85-106).  First [(now - last) / 1000], the
    seconds between two dates, which lines 92 and 93 both compute; then the
    test of lines 92-95: [None] lets the reward through, [Some left] answers
    429. *)
Definition elapsed_seconds (now last : Z) : float64 :=
  f64_div (f64_sub (Number_ (inject_Z now)) (Number_ (inject_Z last))) (Number_ 1000).

Definition cooldown_left (now : Z) (last : option Z) (COOLDOWN : float64) : option float64 :=
  match last with
  | Some last =>
      if f64_ltb (elapsed_seconds now last) COOLDOWN
      then Some (Math_ceil (f64_sub COOLDOWN (elapsed_seconds now last)))
      else None
  | None => None
  end.

Definition reward_ad (uid : string) : Prog :=
  let COOLDOWN := Number_ (default 10%Q (COOLDOWN_SEC env)) in
  let REWARD := default 10 (REWARD_PER_AD env) in
  UsersSelect uid (fun r =>
  let user := data r in
  NewDate (fun now =>
  let last := user ≫= last_ad_at in
  match cooldown_left now last COOLDOWN with
  | Some left_ => json 429 (BCooldown left_)
  | None =>
      match user with
      | None => Crash TypeError
      | Some user =>
          UsersUpdate uid {| p_balance := default 0 (balance user) + REWARD;
                             p_last_ad_at := Some now |} (fun uerr =>
          match uerr with
          | Some message => json 500 (BError message)
          | None =>
              AdEventsInsert {| ae_user_id := uid; ae_reward := REWARD |} (
              UsersSelect uid (fun r' =>
              match data r' with
              | None => Crash TypeError
              | Some updated => json 200 (BBalance (balance updated) (last_ad_at updated))
              end))
          end)
      end
  end)).

(** 4) POST /api/withdraw (lines 107-125).  First the two tests of lines
    116-117 on the row read at line 115. *)
Inductive Admission := Accepted | BelowMinimum | InsufficientBalance.

Definition minCoins : Z :=
  default 100 (COINS_PER_USDT env) * default 20 (MIN_WITHDRAW_USDT env).

Definition admission (amount_coins : Z) (user_balance : option Z) : Admission :=
  if ToInt32 amount_coins <? minCoins then BelowMinimum
  else if default 0 user_balance <? amount_coins then InsufficientBalance
  else Accepted.

Definition present (s : option string) : bool :=
  match s with Some s => negb (String.eqb s EmptyString) | None => false end.

Definition withdraw (uid : string) (b : WithdrawBody) : Prog :=
  let amount := default 0 (amount_coins b) in
  if negb (present (method b)) || negb (present (account b)) || (amount =? 0)
  then json 400 (BError "missing fields")
  else
    UsersSelect uid (fun r =>
    if ToInt32 amount <? minCoins
    then json 400 (BError ("min " +:+ pretty minCoins +:+ " coins"))
    else
      match data r with
      | None => Crash TypeError
      | Some user =>
          if default 0 (balance user) <? amount
          then json 400 (BError "insufficient balance")
          else
            WithdrawRequestsInsert uid (default EmptyString (method b))
                                   (default EmptyString (account b)) amount (
            UsersUpdate uid {| p_balance := default 0 (balance user) - amount;
                               p_last_ad_at := None |} (fun _ =>
            json 200 BOk))
      end).

(** 5) POST /api/admin/withdraw/:id/:action (lines 128-138) *)
Definition adminIds : list string :=
  trim <$> split "," (default EmptyString (ADMIN_IDS env)).

Definition admin_withdraw (rid action : string) (admin : option string) : Prog :=
  if negb (bool_decide (default "undefined" admin ∈ adminIds))
  then json 403 (BError "forbidden")
  else if negb (bool_decide (action ∈ ["approve"; "reject"]))
  then json 400 (BError "bad action")
  else WithdrawRequestsUpdate rid action (json 200 BOk).

(** The handler a request starts, up to its first [await]. *)
Definition handle (now : Z) (req : Request) : Prog :=
  match req with
  | PostAuth initData => post_auth initData
  | GetMe authorization => auth now authorization get_me
  | PostRewardAd authorization => auth now authorization reward_ad
  | PostWithdraw authorization b => auth now authorization (fun uid => withdraw uid b)
  | PostAdminWithdraw rid action admin => admin_withdraw rid action admin
  | GetRoot => json 200 (BText "OK")
  end.

(** ** The store *)

Definition upsert_user (u : Identity) (d : Db) : Db :=
  let row :=
    match users d !! id u with
    | Some old => {| u_name := name u; u_username := username u; u_email := email u;
                     balance := balance old; last_ad_at := last_ad_at old |}
    | None => {| u_name := name u; u_username := username u; u_email := email u;
                 balance := default_balance; last_ad_at := default_last_ad_at |}
    end in
  {| users := <[id u := row]> (users d);
     ad_events := ad_events d; withdraw_requests := withdraw_requests d |}.

Definition select_user (uid : string) (d : Db) : StoreResult User :=
  match users d !! uid with
  | Some u => Data u
  | None => Error single_no_rows
  end.

Definition patch_user (p : UserPatch) (u : User) : User :=
  {| u_name := u_name u; u_username := u_username u; u_email := u_email u;
     balance := Some (p_balance p);
     last_ad_at := match p_last_ad_at p with Some t => Some t | None => last_ad_at u end |}.

Definition update_user (uid : string) (p : UserPatch) (d : Db) : Db :=
  {| users := alter (patch_user p) uid (users d);
     ad_events := ad_events d; withdraw_requests := withdraw_requests d |}.

Definition insert_ad_event (ev : AdEvent) (d : Db) : Db :=
  {| users := users d; ad_events := ad_events d ++ [ev];
     withdraw_requests := withdraw_requests d |}.

Definition insert_withdraw_request (uid meth acct : string) (amount : Z) (d : Db) : Db :=
  let row := {| wr_id := new_request_id (length (withdraw_requests d));
                wr_user_id := uid; wr_method := meth; wr_account := acct;
                wr_amount_coins := amount; wr_status := default_status |} in
  {| users := users d; ad_events := ad_events d;
     withdraw_requests := withdraw_requests d ++ [row] |}.

Definition set_status (rid status : string) (w : WithdrawRequest) : WithdrawRequest :=
  if String.eqb (wr_id w) rid
  then {| wr_id := wr_id w; wr_user_id := wr_user_id w; wr_method := wr_method w;
          wr_account := wr_account w; wr_amount_coins := wr_amount_coins w;
          wr_status := status |}
  else w.

Definition update_withdraw_request (rid status : string) (d : Db) : Db :=
  {| users := users d; ad_events := ad_events d;
     withdraw_requests := set_status rid status <$> withdraw_requests d |}.

(** ** Execution *)

(** One resumption of a suspended handler: the store call it waits on takes
    effect (or fails with [message], leaving the store as it was), and the
    handler runs on to its next suspension. *)
Definition resume (failure : option string) (now : Z) (p : Prog) (d : Db) : Prog * Db :=
  match p, failure with
  | Respond _, _ | Crash _, _ => (p, d)
  | NewDate k, _ => (k now, d)
  | UsersUpsert u k, None => (k, upsert_user u d)
  | UsersUpsert u k, Some _ => (k, d)
  | UsersSelect uid k, None => (k (select_user uid d), d)
  | UsersSelect uid k, Some message => (k (Error message), d)
  | UsersUpdate uid patch k, None => (k None, update_user uid patch d)
  | UsersUpdate uid patch k, Some message => (k (Some message), d)
  | AdEventsInsert ev k, None => (k, insert_ad_event ev d)
  | AdEventsInsert ev k, Some _ => (k, d)
  | WithdrawRequestsInsert uid meth acct amount k, None =>
      (k, insert_withdraw_request uid meth acct amount d)
  | WithdrawRequestsInsert _ _ _ _ k, Some _ => (k, d)
  | WithdrawRequestsUpdate rid st k, None => (k, update_withdraw_request rid st d)
  | WithdrawRequestsUpdate _ _ k, Some _ => (k, d)
  end.

(** A handler run from start to end with nothing in between and a store
    that answers every call. *)
Fixpoint run (p : Prog) (now : Z) (d : Db) : Prog * Db :=
  match p with
  | Respond _ | Crash _ => (p, d)
  | NewDate k => run (k now) now d
  | UsersUpsert u k => run k now (upsert_user u d)
  | UsersSelect uid k => run (k (select_user uid d)) now d
  | UsersUpdate uid patch k => run (k None) now (update_user uid patch d)
  | AdEventsInsert ev k => run k now (insert_ad_event ev d)
  | WithdrawRequestsInsert uid meth acct amount k =>
      run k now (insert_withdraw_request uid meth acct amount d)
  | WithdrawRequestsUpdate rid st k => run k now (update_withdraw_request rid st d)
  end.

Definition step (w : World) (e : Event) : World :=
  match e with
  | Tick ms => {| db := db w; clock := clock w + Z.of_N ms; threads := threads w |}
  | Arrive req =>
      {| db := db w; clock := clock w; threads := threads w ++ [handle (clock w) req] |}
  | Resume i failure =>
      match threads w !! i with
      | Some p =>
          let '(p', d') := resume failure (clock w) p (db w) in
          {| db := d'; clock := clock w; threads := <[i := p']> (threads w) |}
      | None => w
      end
  end.

Definition exec (w : World) (es : list Event) : World := foldl step w es.

(** Reward requests of one user served one after the other, each from
    start to end, at the given times. *)
Fixpoint credits (uid : string) (times : list Z) (d : Db) : Db :=
  match times with
  | [] => d
  | t :: times' => credits uid times' (run (reward_ad uid) t d).2
  end.

(** Each of the times passes the test of lines 92-95 against the one before. *)
Fixpoint spaced (last : option Z) (times : list Z) : Prop :=
  match times with
  | [] => True
  | t :: times' =>
      cooldown_left t last (Number_ (default 10%Q (COOLDOWN_SEC env))) = None
      /\ spaced (Some t) times'
  end.

End Server.

(* ================================================================== *)
(** * Specification vocabulary *)

(** The canonical string, in the words of the specification: the fields in
    the order of their names, one [name=value] line each. *)
Definition line (f : string * string) : string := f.1 +:+ "=" +:+ f.2.

Definition sorted_fields (data : Obj string) : list (string * string) :=
  (fun k => (k, default "undefined" (obj_get k data))) <$> sort (Object_keys data).

(** The identity returned for the empty user descriptor. *)
Definition guest : Identity :=
  {| id := "undefined"; name := "Guest"; username := EmptyString; email := EmptyString |}.

(** Every row of [d] is still in [d'], with the balance and [last_ad_at] it had. *)
Definition preserves_funds (d d' : Db) : Prop :=
  forall uid u, users d !! uid = Some u ->
    exists u', users d' !! uid = Some u'
      /\ balance u' = balance u /\ last_ad_at u' = last_ad_at u.

(** Handlers whose only store calls are the upsert and reads of [users]. *)
Inductive identity_only : Prog -> Prop :=
| io_respond r : identity_only (Respond r)
| io_crash e : identity_only (Crash e)
| io_newdate k : (forall t, identity_only (k t)) -> identity_only (NewDate k)
| io_upsert u k : identity_only k -> identity_only (UsersUpsert u k)
| io_select uid k : (forall r, identity_only (k r)) -> identity_only (UsersSelect uid k).

Definition balance_ok (u : User) : Prop := forall b, balance u = Some b -> 0 <= b.

Definition balances_ok (d : Db) : Prop :=
  forall uid u, users d !! uid = Some u -> balance_ok u.

(** Handlers that write a non-negative balance whenever the rows they read
    have non-negative balances. *)
Inductive funds_safe : Prog -> Prop :=
| fs_respond r : funds_safe (Respond r)
| fs_crash e : funds_safe (Crash e)
| fs_newdate k : (forall t, funds_safe (k t)) -> funds_safe (NewDate k)
| fs_upsert u k : funds_safe k -> funds_safe (UsersUpsert u k)
| fs_select uid k :
    (forall r, (forall u, r = Data u -> balance_ok u) -> funds_safe (k r)) ->
    funds_safe (UsersSelect uid k)
| fs_update uid p k :
    0 <= p_balance p -> (forall e, funds_safe (k e)) -> funds_safe (UsersUpdate uid p k)
| fs_ad_event ev k : funds_safe k -> funds_safe (AdEventsInsert ev k)
| fs_withdraw_insert uid m a n k :
    funds_safe k -> funds_safe (WithdrawRequestsInsert uid m a n k)
| fs_withdraw_update rid st k : funds_safe k -> funds_safe (WithdrawRequestsUpdate rid st k).

Definition world_ok (w : World) : Prop :=
  balances_ok (db w) /\ Forall funds_safe (threads w).

(* ================================================================== *)
(** * A reference platform

    The properties below hold for every [Platform] and [Store].  To evaluate
    the server on concrete requests, this module supplies one of each: a
    parser for the JSON grammar (numbers limited to integers of at most 15
    digits, whose [String] image is their decimal writing; [\u] escapes
    limited to the Basic Multilingual Plane outside the surrogates), and a
    token format of the same shape as a signed JWT. *)

Module Reference.

Definition is_json_ws (a : ascii) : bool :=
  let n := N_of_ascii a in ((n =? 32) || (n =? 9) || (n =? 10) || (n =? 13))%N.

Fixpoint skip_ws (s : string) : string :=
  match s with
  | String a s' => if is_json_ws a then skip_ws s' else s
  | EmptyString => EmptyString
  end.

Definition is_digit (a : ascii) : bool :=
  let n := N_of_ascii a in ((48 <=? n) && (n <=? 57))%N.

Fixpoint digits (s : string) : string * string :=
  match s with
  | String a s' =>
      if is_digit a then let '(d, r) := digits s' in (String a d, r)
      else (EmptyString, s)
  | EmptyString => (EmptyString, EmptyString)
  end.

Definition starts_fraction (s : string) : bool :=
  match s with
  | String a _ => Ascii.eqb a "." || Ascii.eqb a "e" || Ascii.eqb a "E"
  | EmptyString => false
  end.

Definition parse_number (s : string) : option (JsValue * string) :=
  let '(neg, s1) := match s with String "-" r => (true, r) | _ => (false, s) end in
  let '(d, r) := digits s1 in
  match d with
  | EmptyString => None
  | String "0" (String _ _) => None
  | _ =>
      if starts_fraction r || (15 <? String.length d)%nat then None
      else if String.eqb d "0" then Some (JNum "0", r)
      else Some (JNum (if neg then String "-" d else d), r)
  end.

Definition utf8 (cp : Z) : string :=
  if cp <? 128 then string_of_bytes [cp]
  else if cp <? 2048 then string_of_bytes [192 + cp / 64; 128 + cp mod 64]
  else string_of_bytes [224 + cp / 4096; 128 + (cp / 64) mod 64; 128 + cp mod 64].

Definition escape (a : ascii) : option ascii :=
  if Ascii.eqb a "034" then Some "034"%char
  else if Ascii.eqb a "\" then Some "\"%char
  else if Ascii.eqb a "/" then Some "/"%char
  else if Ascii.eqb a "b" then Some "008"%char
  else if Ascii.eqb a "f" then Some "012"%char
  else if Ascii.eqb a "n" then Some "010"%char
  else if Ascii.eqb a "r" then Some "013"%char
  else if Ascii.eqb a "t" then Some "009"%char
  else None.

(** The text after an opening quote, up to and without the closing one. *)
Fixpoint parse_string (fuel : nat) (s : string) : option (string * string) :=
  match fuel with
  | O => None
  | S fuel' =>
      match s with
      | EmptyString => None
      | String "034" r => Some (EmptyString, r)
      | String "\" (String "u" (String a (String b (String c (String d r))))) =>
          match hex_value a, hex_value b, hex_value c, hex_value d with
          | Some x3, Some x2, Some x1, Some x0 =>
              let cp := ((x3 * 16 + x2) * 16 + x1) * 16 + x0 in
              if (55296 <=? cp) && (cp <=? 57343) then None
              else '(t, r') ← parse_string fuel' r; Some (utf8 cp +:+ t, r')
          | _, _, _, _ => None
          end
      | String "\" (String e r) =>
          c ← escape e; '(t, r') ← parse_string fuel' r; Some (String c t, r')
      | String a r =>
          if (N_of_ascii a <? 32)%N then None
          else '(t, r') ← parse_string fuel' r; Some (String a t, r')
      end
  end.

Definition literal (word : string) (v : JsValue) (s : string) : option (JsValue * string) :=
  if String.prefix word s then Some (v, slice (String.length word) s) else None.

Inductive Expect :=
| AValue
| Elements (acc : list JsValue)
| Members (acc : list (string * JsValue)).

Fixpoint parse (fuel : nat) (e : Expect) (s : string) : option (JsValue * string) :=
  match fuel with
  | O => None
  | S fuel' =>
      match e, skip_ws s with
      | AValue, String "n" _ as t => literal "null" JNull t
      | AValue, String "t" _ as t => literal "true" (JBool true) t
      | AValue, String "f" _ as t => literal "false" (JBool false) t
      | AValue, String "034" r =>
          '(x, r') ← parse_string (S (String.length r)) r; Some (JStr x, r')
      | AValue, String "[" r =>
          match skip_ws r with
          | String "]" r' => Some (JArr [], r')
          | _ => parse fuel' (Elements []) r
          end
      | AValue, String "{" r =>
          match skip_ws r with
          | String "}" r' => Some (JObj [], r')
          | _ => parse fuel' (Members []) r
          end
      | AValue, t => parse_number t
      | Elements acc, t =>
          '(v, r) ← parse fuel' AValue t;
          match skip_ws r with
          | String "," r' => parse fuel' (Elements (acc ++ [v])) r'
          | String "]" r' => Some (JArr (acc ++ [v]), r')
          | _ => None
          end
      | Members acc, String "034" r =>
          '(k, r1) ← parse_string (S (String.length r)) r;
          match skip_ws r1 with
          | String ":" r2 =>
              '(v, r3) ← parse fuel' AValue r2;
              match skip_ws r3 with
              | String "," r' => parse fuel' (Members (acc ++ [(k, v)])) r'
              | String "}" r' => Some (JObj (acc ++ [(k, v)]), r')
              | _ => None
              end
          | _ => None
          end
      | Members _, _ => None
      end
  end.

Definition parse_json (text : string) : option JsValue :=
  '(v, r) ← parse (2 * String.length text + 2) AValue text;
  match skip_ws r with
  | EmptyString => Some v
  | _ => None
  end.

(** Token = subject, expiry in seconds, and their MAC under the secret. *)
Definition mac (secret payload : string) : string :=
  hex (hmac_sha256 (bytes_of_string secret) (bytes_of_string payload)).

Definition sign_token (secret : string) (now : Z) (uid : string) : string :=
  let payload := pretty (now / 1000 + 7200) +:+ "." +:+ uid in
  mac secret payload +:+ "." +:+ payload.

Fixpoint decimal (s : string) (acc : Z) : option Z :=
  match s with
  | EmptyString => Some acc
  | String a s' =>
      if is_digit a then decimal s' (10 * acc + (Z.of_N (N_of_ascii a) - 48)) else None
  end.

Fixpoint cut_dot (s : string) : option (string * string) :=
  match s with
  | EmptyString => None
  | String a s' =>
      if Ascii.eqb a "." then Some (EmptyString, s')
      else '(x, y) ← cut_dot s'; Some (String a x, y)
  end.

Definition verify_token (secret : string) (now : Z) (token : option string) : option string :=
  token ← token;
  '(tag, payload) ← cut_dot token;
  '(exp, uid) ← cut_dot payload;
  exp ← decimal exp 0;
  if String.eqb tag (mac secret payload) && (now / 1000 <? exp) then Some uid else None.

#[export] Instance platform : Platform :=
  {| JSON_parse := parse_json;
     jwt_sign := sign_token;
     jwt_verify := verify_token |}.

#[export] Instance store : Store :=
  {| default_balance := Some 0;
     new_request_id := fun n => pretty (Z.of_nat n + 1);
     single_no_rows := "JSON object requested, multiple (or no) rows returned" |}.

End Reference.

(** A configuration, a store with one user, and two requests of that user,
    for the closed examples. *)
Module Demo.

Definition env : Env :=
  {| BOT_TOKEN := "123456:TEST-bot-token"; JWT_SECRET := "s3cret";
     COOLDOWN_SEC := None; REWARD_PER_AD := None; COINS_PER_USDT := None;
     MIN_WITHDRAW_USDT := None; ADMIN_IDS := Some "111, 222" |}.

Definition env_reward_1 : Env :=
  {| BOT_TOKEN := "123456:TEST-bot-token"; JWT_SECRET := "s3cret";
     COOLDOWN_SEC := None; REWARD_PER_AD := Some 1; COINS_PER_USDT := None;
     MIN_WITHDRAW_USDT := None; ADMIN_IDS := Some "111, 222" |}.

Definition t0 : Z := 1700000000000.

Definition ann (b : Z) : User :=
  {| u_name := "Ann"; u_username := "@ann"; u_email := EmptyString;
     balance := Some b; last_ad_at := None |}.

Definition request (st : string) : WithdrawRequest :=
  {| wr_id := "1"; wr_user_id := "42"; wr_method := "bkash"; wr_account := "017";
     wr_amount_coins := 2000; wr_status := st |}.

Definition world (b : Z) : World :=
  {| db := {| users := {[ "42" := ann b ]}; ad_events := []; withdraw_requests := [] |};
     clock := t0; threads := [] |}.

Definition bearer : option string :=
  Some ("Bearer " +:+ Reference.sign_token "s3cret" t0 "42").

Definition withdraw_body (amount : Z) : WithdrawBody :=
  {| method := Some "bkash"; account := Some "017"; amount_coins := Some amount |}.

Definition withdraw_2000 : Request := PostWithdraw bearer (withdraw_body 2000).

(** Signed with the bot token of [env]: an auth_date and the user descriptor
    of Ann, whose id is 42. *)
Definition initData_ann : string :=
  "auth_date=1700000000"
  +:+ "&hash=ba059ddc7e61081fe4fe655d9e09e48580bd5c70512cfe0015d58f1988eccafa"
  +:+ "&user=%7B%22id%22%3A42%2C%22first_name%22%3A%22Ann%22%7D".

End Demo.

(* ================================================================== *)
(** * The rest of server.js, and more vocabulary *)

(** ** The CORS origin test (lines 11-15) *)

(** [allowed]: the entries of ALLOWED_ORIGINS, trimmed, the empty ones dropped. *)
Definition allowed (ALLOWED_ORIGINS : option string) : list string :=
  filter (fun s => s <> EmptyString)
         (trim <$> split "," (default EmptyString ALLOWED_ORIGINS)).

(** The value the [origin] callback passes on: [!o || allowed.includes(o)]. *)
Definition cors_origin (ALLOWED_ORIGINS : option string) (o : option string) : bool :=
  negb (present o) || bool_decide (default EmptyString o ∈ allowed ALLOWED_ORIGINS).

(** [Q] holds of a handler and of every handler it can become. *)
Inductive always (Q : Prog -> Prop) : Prog -> Prop :=
| al_respond r : Q (Respond r) -> always Q (Respond r)
| al_crash e : Q (Crash e) -> always Q (Crash e)
| al_newdate k : Q (NewDate k) -> (forall t, always Q (k t)) -> always Q (NewDate k)
| al_upsert u k : Q (UsersUpsert u k) -> always Q k -> always Q (UsersUpsert u k)
| al_select uid k :
    Q (UsersSelect uid k) -> (forall r, always Q (k r)) -> always Q (UsersSelect uid k)
| al_update uid p k :
    Q (UsersUpdate uid p k) -> (forall e, always Q (k e)) -> always Q (UsersUpdate uid p k)
| al_ad_event ev k : Q (AdEventsInsert ev k) -> always Q k -> always Q (AdEventsInsert ev k)
| al_withdraw_insert uid m a n k :
    Q (WithdrawRequestsInsert uid m a n k) -> always Q k ->
    always Q (WithdrawRequestsInsert uid m a n k)
| al_withdraw_update rid st k :
    Q (WithdrawRequestsUpdate rid st k) -> always Q k ->
    always Q (WithdrawRequestsUpdate rid st k).

(** The handler has answered, or has ended on an exception. *)
Definition finished (p : Prog) : Prop :=
  match p with Respond _ | Crash _ => True | _ => False end.

(** The handler is at most [n] suspensions away from its end. *)
Inductive within : nat -> Prog -> Prop :=
| wi_respond n r : within n (Respond r)
| wi_crash n e : within n (Crash e)
| wi_newdate n k : (forall t, within n (k t)) -> within (S n) (NewDate k)
| wi_upsert n u k : within n k -> within (S n) (UsersUpsert u k)
| wi_select n uid k : (forall r, within n (k r)) -> within (S n) (UsersSelect uid k)
| wi_update n uid p k : (forall e, within n (k e)) -> within (S n) (UsersUpdate uid p k)
| wi_ad_event n ev k : within n k -> within (S n) (AdEventsInsert ev k)
| wi_withdraw_insert n uid m a amt k :
    within n k -> within (S n) (WithdrawRequestsInsert uid m a amt k)
| wi_withdraw_update n rid st k : within n k -> within (S n) (WithdrawRequestsUpdate rid st k).

(** The status codes server.js sends. *)
Definition sends_known_status (p : Prog) : Prop :=
  match p with
  | Respond r => status r ∈ [200; 400; 401; 403; 429; 500]
  | _ => True
  end.

(** A status written by the handler is "approve" or "reject". *)
Definition writes_action (p : Prog) : Prop :=
  match p with
  | WithdrawRequestsUpdate _ st _ => st ∈ ["approve"; "reject"]
  | _ => True
  end.

(** The handler writes to [users] only by updating the row [uid]. *)
Definition confined (uid : string) (p : Prog) : Prop :=
  match p with
  | UsersUpdate u _ _ => u = uid
  | UsersUpsert _ _ => False
  | _ => True
  end.

(** The handler only reads. *)
Definition reads_only (p : Prog) : Prop :=
  match p with
  | Respond _ | Crash _ | NewDate _ | UsersSelect _ _ => True
  | _ => False
  end.

Definition statuses_known (d : Db) : Prop :=
  forall w, w ∈ withdraw_requests d -> wr_status w ∈ ["pending"; "approve"; "reject"].

(** [d'] holds all that [d] holds: every user, the ad events as a prefix, and
    every withdraw request at its place, up to its status. *)
Definition extends (d d' : Db) : Prop :=
  dom (users d) ⊆ dom (users d')
  /\ ad_events d `prefix_of` ad_events d'
  /\ forall i w, withdraw_requests d !! i = Some w ->
       exists w', withdraw_requests d' !! i = Some w'
         /\ wr_id w' = wr_id w /\ wr_user_id w' = wr_user_id w
         /\ wr_method w' = wr_method w /\ wr_account w' = wr_account w
         /\ wr_amount_coins w' = wr_amount_coins w.

Section Resumptions.
Context {platform : Platform} {store : Store}.

(** A handler resumed several times, each time at some time and on some store. *)
Definition resumes (p : Prog) (steps : list (option string * Z * Db)) : Prog :=
  foldl (fun p s => (resume s.1.1 s.1.2 p s.2).1) p steps.
End Resumptions.

(** More cases for the closed examples. *)
Module Cases.

Definition two_withdrawals : list Event :=
  [Arrive Demo.withdraw_2000; Arrive Demo.withdraw_2000;
   Resume 0 None; Resume 1 None; Resume 0 None; Resume 0 None; Resume 1 None; Resume 1 None].

Definition ann_identity : Identity :=
  {| id := "42"; name := "Ann"; username := EmptyString; email := EmptyString |}.

Definition no_users : Db := {| users := ∅; ad_events := []; withdraw_requests := [] |}.

Definition env_without_admins : Env :=
  {| BOT_TOKEN := "123456:TEST-bot-token"; JWT_SECRET := "s3cret";
     COOLDOWN_SEC := None; REWARD_PER_AD := None; COINS_PER_USDT := None;
     MIN_WITHDRAW_USDT := None; ADMIN_IDS := None |}.

(** A cooldown of 2.2 s; an admin list with a trailing comma. *)
Definition env_cooldown_2_2 : Env :=
  {| BOT_TOKEN := "123456:TEST-bot-token"; JWT_SECRET := "s3cret";
     COOLDOWN_SEC := Some (22 # 10)%Q; REWARD_PER_AD := None; COINS_PER_USDT := None;
     MIN_WITHDRAW_USDT := None; ADMIN_IDS := Some "111" |}.

Definition env_trailing_comma : Env :=
  {| BOT_TOKEN := "123456:TEST-bot-token"; JWT_SECRET := "s3cret";
     COOLDOWN_SEC := None; REWARD_PER_AD := None; COINS_PER_USDT := None;
     MIN_WITHDRAW_USDT := None; ADMIN_IDS := Some "111," |}.

Definition rewarded (last : Z) : Db :=
  {| users := {[ "42" := {| u_name := "Ann"; u_username := "@ann";
                            u_email := EmptyString; balance := Some 10;
                            last_ad_at := Some last |} ]};
     ad_events := []; withdraw_requests := [] |}.

End Cases.

(* ================================================================== *)
(** * Properties *)

(** ** The runtime library against published test vectors *)

Example sha256_abc :
  hex (SHA256.digest (bytes_of_string "abc"))
  = "ba7816bf8f01cfea414140de5dae2223b00361a396177a9cb410ff61f20015ad".
Proof. vm_compute. reflexivity. Qed.

Example sha256_empty :
  hex (SHA256.digest [])
  = "e3b0c44298fc1c149afbf4c8996fb92427ae41e4649b934ca495991b7852b855".
Proof. vm_compute. reflexivity. Qed.

Example URLSearchParams_example :
  URLSearchParams "?a=1&&c&d=e=f+g&u=%7B%7d"
  = [("a", "1"); ("c", EmptyString); ("d", "e=f g"); ("u", "{}")].
Proof. reflexivity. Qed.

Example fromEntries_last_wins :
  Object_fromEntries [("a", 1); ("b", 2); ("a", 3)] = [("a", 3); ("b", 2)].
Proof. reflexivity. Qed.

Example adminIds_example : adminIds Demo.env = ["111"; "222"].
Proof. reflexivity. Qed.

(** Without ADMIN_IDS the list holds the empty string. *)
Example adminIds_unset :
  adminIds {| BOT_TOKEN := "t"; JWT_SECRET := "s"; COOLDOWN_SEC := None;
              REWARD_PER_AD := None; COINS_PER_USDT := None;
              MIN_WITHDRAW_USDT := None; ADMIN_IDS := None |} = [EmptyString].
Proof. reflexivity. Qed.

Example form_decode_example : form_decode "a%%41+b%2Bc%4" = "a%A b+c%4".
Proof. reflexivity. Qed.

Example ToString_example :
  ToString (JArr [JNull; JNum "1"; JArr [JStr "x"; JStr "y"]; JObj []])
  = Normal ",1,x,y,[object Object]".
Proof. reflexivity. Qed.

(** On the samples, rounding, division, subtraction and comparison of
    doubles are those of the Standard Library's IEEE 754 specification. *)
Example float64_agrees_with_SpecFloat :
  forallb (fun x => forallb (IEEE.agree x) IEEE.samples) IEEE.samples = true.
Proof. by vm_compute. Qed.

(** 2.2 - 1200 / 1000 is 1 + 2^-52 in doubles, and 100 / 1000 is the double
    nearest to 0.1. *)
Example float64_examples :
  IEEE.same (f64_sub (Number_ (22 # 10)) (f64_div (Number_ 1200) (Number_ 1000)))
            (Finite false (1 + pow2 (-52))) = true
  /\ IEEE.same (f64_div (Number_ 100) (Number_ 1000)) (Number_ (1 # 10)) = true
  /\ IEEE.same (Number_ (1 # 10)) (Finite false (inject_Z 7205759403792794 * pow2 (-56))) = true.
Proof. by vm_compute. Qed.

(** ** The order of [sort] *)

Lemma ascii_compare_N (a b : ascii) :
  Ascii.compare a b = N.compare (N_of_ascii a) (N_of_ascii b).
Proof. reflexivity. Qed.

Lemma str_le_cons (a b : ascii) (s t : string) :
  str_le (String a s) (String b t) <->
  (N_of_ascii a < N_of_ascii b)%N \/ (a = b /\ str_le s t).
Proof.
  unfold str_le, String.leb. simpl. rewrite ascii_compare_N.
  destruct (N.compare_spec (N_of_ascii a) (N_of_ascii b)) as [E|L|G].
  - assert (a = b)
      by (rewrite <- (ascii_N_embedding a), <- (ascii_N_embedding b); congruence).
    subst. split; [intros; right; done | intros [?|[_ ?]]; [lia | done]].
  - split; [intros; by left | done].
  - split; [done | intros [?|[-> _]]; lia].
Qed.

#[global] Instance str_le_trans : Transitive str_le.
Proof.
  intros a. induction a as [|x a IH]; intros [|y b] [|z c]; try done.
  rewrite !str_le_cons. intros [?|[-> ?]] [?|[-> ?]]; try (left; lia).
  right. split; [done | by eapply IH].
Qed.

#[global] Instance str_le_total : Total str_le.
Proof. intros a b. apply String.leb_total. Qed.

#[global] Instance str_le_antisymm : AntiSymm (=) str_le.
Proof. intros a b Hab Hba. by apply String.leb_antisym. Qed.

(** The result of [sort] depends on the strings sorted, not on their order. *)
Lemma sort_Permutation (l1 l2 : list string) : l1 ≡ₚ l2 -> sort l1 = sort l2.
Proof.
  intros Hp. unfold sort.
  apply (StronglySorted_unique str_le); try apply StronglySorted_merge_sort; try apply _.
  by rewrite !merge_sort_Permutation.
Qed.

(** ** Objects *)

Section Objects.
Context {A : Type}.
Implicit Types (o : Obj A) (k : string) (v : A).

Lemma eqb_decide k k' : String.eqb k k' = bool_decide (k = k').
Proof.
  destruct (String.eqb_spec k k').
  - by rewrite bool_decide_eq_true_2.
  - by rewrite bool_decide_eq_false_2.
Qed.

Lemma obj_get_None o k : obj_get k o = None <-> k ∉ o.*1.
Proof.
  induction o as [|[k' v'] o IH]; simpl.
  - split; [intros _; apply not_elem_of_nil | done].
  - rewrite eqb_decide, not_elem_of_cons. case_bool_decide as Hk; subst.
    + split; [done | intros [? _]; done].
    + rewrite IH. split; [intros; split; [congruence | done] | intros [_ ?]; done].
Qed.

Lemma obj_get_Some o k v : NoDup o.*1 -> obj_get k o = Some v <-> (k, v) ∈ o.
Proof.
  induction o as [|[k' v'] o IH]; simpl; intros Hnd.
  - split; [done | by intros ?%elem_of_nil].
  - apply NoDup_cons in Hnd as [Hk Hnd]. rewrite eqb_decide, elem_of_cons.
    case_bool_decide as Hd; subst.
    + split; [intros [= ->]; by left | intros [[= ->]|Hin]; [done|]].
      destruct Hk. apply list_elem_of_fmap. by exists (k, v).
    + rewrite IH by done. split; [intros; by right | intros [[= -> ->]|?]; done].
Qed.

Lemma obj_set_fresh o k v : k ∉ o.*1 -> obj_set k v o = o ++ [(k, v)].
Proof.
  induction o as [|[k' v'] o IH]; simpl; [done|].
  rewrite not_elem_of_cons, eqb_decide. intros [Hne Hk].
  rewrite bool_decide_eq_false_2 by done. by rewrite IH.
Qed.

Lemma obj_set_keys o k v :
  (obj_set k v o).*1 = if bool_decide (k ∈ o.*1) then o.*1 else o.*1 ++ [k].
Proof.
  induction o as [|[k' v'] o IH]; [done|].
  cbn [obj_set]. rewrite eqb_decide, !fmap_cons. cbn [fst].
  destruct (decide (k' = k)) as [->|Hne].
  - rewrite !bool_decide_eq_true_2; [done | (apply elem_of_cons; tauto) | done].
  - rewrite (bool_decide_eq_false_2 (k' = k)) by done.
    rewrite fmap_cons, IH. cbn [fst].
    destruct (decide (k ∈ o.*1)) as [Hin|Hin].
    + rewrite !bool_decide_eq_true_2; [done | (apply elem_of_cons; tauto) | done].
    + rewrite !bool_decide_eq_false_2; [done | | done].
      rewrite elem_of_cons. intros [->|?]; done.
Qed.

Lemma obj_set_NoDup o k v : NoDup o.*1 -> NoDup (obj_set k v o).*1.
Proof.
  intros Hnd. rewrite obj_set_keys. case_bool_decide; [done|].
  apply NoDup_app. split_and!; [done | | apply NoDup_singleton].
  intros x Hx ->%list_elem_of_singleton. done.
Qed.

Lemma fromEntries_from_NoDup (entries : list (string * A)) o :
  NoDup o.*1 -> NoDup (foldl (fun o kv => obj_set kv.1 kv.2 o) o entries).*1.
Proof.
  revert o. induction entries as [|[k v] l IH]; simpl; intros o Hnd; [done|].
  apply IH. by apply obj_set_NoDup.
Qed.

Lemma Object_fromEntries_NoDup (entries : list (string * A)) :
  NoDup (Object_fromEntries entries).*1.
Proof. apply fromEntries_from_NoDup. constructor. Qed.

Lemma fromEntries_from_fresh (entries : list (string * A)) o :
  NoDup (o.*1 ++ entries.*1) ->
  foldl (fun o kv => obj_set kv.1 kv.2 o) o entries = o ++ entries.
Proof.
  revert o. induction entries as [|[k v] l IH]; simpl; intros o Hnd.
  - by rewrite app_nil_r.
  - rewrite obj_set_fresh.
    + rewrite IH; [by rewrite <- app_assoc|].
      rewrite fmap_app. simpl. by rewrite <- app_assoc.
    + apply NoDup_app in Hnd as (_ & Hdisj & _). intros Hk.
      apply (Hdisj k Hk). by left.
Qed.

(** Entries with pairwise distinct names are stored as they come. *)
Lemma Object_fromEntries_distinct (entries : list (string * A)) :
  NoDup entries.*1 -> Object_fromEntries entries = entries.
Proof. intros Hnd. unfold Object_fromEntries. by rewrite fromEntries_from_fresh. Qed.

Lemma obj_rest_NoDup o k : NoDup o.*1 -> NoDup (obj_rest k o).*1.
Proof.
  intros Hnd. eapply sublist_NoDup; [exact Hnd|].
  unfold obj_rest. apply fmap_sublist, sublist_filter.
Qed.

Lemma obj_get_Permutation o o' k :
  NoDup o.*1 -> o ≡ₚ o' -> obj_get k o = obj_get k o'.
Proof.
  intros Hnd Hp. assert (NoDup o'.*1) by (by rewrite <- Hp).
  destruct (obj_get k o) as [v|] eqn:E.
  - symmetry. apply obj_get_Some; [done|]. rewrite <- Hp. by apply obj_get_Some.
  - symmetry. apply obj_get_None. rewrite <- Hp. by apply obj_get_None.
Qed.

End Objects.

(** ** Identity verification *)

Section Verifier.
Context {platform : Platform} (env : Env).

Lemma dataCheckString_lines data :
  dataCheckString data = join LF (line <$> sorted_fields data).
Proof.
  unfold dataCheckString, sorted_fields. by rewrite <- list_fmap_compose.
Qed.

Lemma sorted_fields_keys data : (sorted_fields data).*1 = sort (Object_keys data).
Proof.
  unfold sorted_fields. rewrite <- list_fmap_compose.
  transitivity ((fun k => k) <$> sort (Object_keys data)); [|apply list_fmap_id].
  by apply list_fmap_ext.
Qed.

Lemma fields_of_keys (data : Obj string) :
  NoDup data.*1 ->
  (fun k => (k, default "undefined" (obj_get k data))) <$> data.*1 = data.
Proof.
  intros Hnd. rewrite <- list_fmap_compose.
  transitivity ((fun f => f) <$> data); [|apply list_fmap_id].
  apply list_fmap_ext. intros i [k v] Hi. simpl.
  assert (obj_get k data = Some v) as ->; [|done].
  apply obj_get_Some; [done|]. by eapply list_elem_of_lookup_2.
Qed.

Lemma sorted_fields_Permutation (data : Obj string) :
  NoDup data.*1 -> sorted_fields data ≡ₚ data.
Proof.
  intros Hnd. rewrite <- (fields_of_keys data Hnd) at 2.
  unfold sorted_fields, sort, Object_keys. by rewrite merge_sort_Permutation.
Qed.

Lemma sorted_fields_sorted (data : Obj string) :
  StronglySorted str_le (sorted_fields data).*1.
Proof. rewrite sorted_fields_keys. apply StronglySorted_merge_sort; apply _. Qed.

Lemma dataCheckString_Permutation (data data' : Obj string) :
  NoDup data.*1 -> data ≡ₚ data' -> dataCheckString data = dataCheckString data'.
Proof.
  intros Hnd Hp. unfold dataCheckString, Object_keys.
  rewrite (sort_Permutation data.*1 data'.*1) by (by rewrite Hp).
  f_equal. apply list_fmap_ext. intros i k _.
  by rewrite (obj_get_Permutation data data' k Hnd Hp).
Qed.

Lemma verifyEntries_unfold entries :
  let fields := Object_fromEntries entries in
  let data := obj_rest "hash" fields in
  verifyEntries env entries =
    if decide (Some (signature env data) = obj_get "hash" fields)
    then u ← identity_of data; Normal (Some u)
    else Normal None.
Proof. reflexivity. Qed.

Lemma identity_of_user data data' :
  obj_get "user" data = obj_get "user" data' -> identity_of data = identity_of data'.
Proof. unfold identity_of. by intros ->. Qed.

Lemma bind_Some_not_null (m : completion Identity) :
  (u ← m; Normal (Some u)) <> Normal None.
Proof. by destruct m. Qed.

(** C7.  For every set of payload fields (pairwise distinct names), permuting
    the order in which the fields appear leaves the canonical string, the
    signature computed from it and the outcome of the verification unchanged. *)
Theorem canonicalization_order_independent (entries entries' : list (string * string)) :
  NoDup entries.*1 -> entries ≡ₚ entries' ->
  let data := obj_rest "hash" (Object_fromEntries entries) in
  let data' := obj_rest "hash" (Object_fromEntries entries') in
  dataCheckString data = dataCheckString data'
  /\ signature env data = signature env data'
  /\ verifyEntries env entries = verifyEntries env entries'.
Proof.
  intros Hnd Hp data data'.
  assert (NoDup entries'.*1) as Hnd' by (by rewrite <- Hp).
  assert (data ≡ₚ data') as Hdata.
  { unfold data, data', obj_rest. rewrite !Object_fromEntries_distinct by done.
    by rewrite Hp. }
  assert (NoDup data.*1) as Hd by apply obj_rest_NoDup, Object_fromEntries_NoDup.
  assert (dataCheckString data = dataCheckString data') as Hs
    by (by apply dataCheckString_Permutation).
  assert (signature env data = signature env data') as Hsig
    by (unfold signature; by rewrite Hs).
  split_and!; [done | done |].
  rewrite !verifyEntries_unfold. fold data data'. rewrite <- Hsig.
  rewrite !Object_fromEntries_distinct by done.
  rewrite <- (obj_get_Permutation entries entries' "hash" Hnd Hp).
  rewrite (identity_of_user data data'); [done|].
  by apply obj_get_Permutation.
Qed.

(** C1.  For every authentication payload, the signature check passes (the
    verifier does not return [null]) if and only if the payload carries a
    [hash] field equal to the HMAC-SHA256, keyed with the SHA-256 hash of the
    bot token, of the canonical string: the fields other than [hash], sorted
    by name, one [name=value] line each, joined by line feeds.  A payload
    without a [hash] field is a mismatch and the verifier returns [null].
    Whenever the verifier returns an identity the signature matched, and on a
    match the verifier goes on to the user descriptor. *)
Theorem signature_check (initData : string) :
  let fields := Object_fromEntries (URLSearchParams initData) in
  let canonical_fields := sorted_fields (obj_rest "hash" fields) in
  let canonical := join LF (line <$> canonical_fields) in
  let key := SHA256.digest (bytes_of_string (BOT_TOKEN env)) in
  let expected := hex (hmac_sha256 key (bytes_of_string canonical)) in
  canonical_fields ≡ₚ filter (fun f => f.1 <> "hash") fields
  /\ StronglySorted str_le canonical_fields.*1
  /\ (verifyTelegramInitData env initData <> Normal None
        <-> obj_get "hash" fields = Some expected)
  /\ (obj_get "hash" fields = None ->
      verifyTelegramInitData env initData = Normal None)
  /\ (forall u, verifyTelegramInitData env initData = Normal (Some u) ->
                obj_get "hash" fields = Some expected)
  /\ (obj_get "hash" fields = Some expected ->
      verifyTelegramInitData env initData
      = (u ← identity_of (obj_rest "hash" fields); Normal (Some u))).
Proof.
  intros fields. set (data := obj_rest "hash" fields). intros canonical_fields.
  assert (NoDup data.*1) as Hd by apply obj_rest_NoDup, Object_fromEntries_NoDup.
  cbn zeta. unfold canonical_fields. rewrite <- dataCheckString_lines.
  change (hex _) with (signature env data).
  split; [by apply sorted_fields_Permutation|].
  split; [apply sorted_fields_sorted|].
  unfold verifyTelegramInitData. rewrite verifyEntries_unfold.
  fold fields data. case_decide as Hh.
  - split_and!; [| congruence | done | done].
    split; [done | intros _; apply bind_Some_not_null].
  - split_and!; [| done | intros u [=] | congruence].
    split; [done | congruence].
Qed.

Lemma verify_matched initData :
  let fields := Object_fromEntries (URLSearchParams initData) in
  let data := obj_rest "hash" fields in
  obj_get "hash" fields = Some (signature env data) ->
  verifyTelegramInitData env initData = (u ← identity_of data; Normal (Some u)).
Proof.
  intros fields data Hh. unfold verifyTelegramInitData. rewrite verifyEntries_unfold.
  fold fields data. by rewrite decide_True.
Qed.

(** C4, amended.  For every payload whose signature verifies: if the user
    descriptor is present, not empty and not valid JSON, the verifier fails
    by throwing the SyntaxError of [JSON.parse]; if the user descriptor is
    missing or empty, the text of the empty object is parsed in its place
    and the verifier returns the identity with id "undefined", name "Guest"
    and empty username and email.  It does not reject. *)
Theorem malformed_user (initData : string) :
  let fields := Object_fromEntries (URLSearchParams initData) in
  let data := obj_rest "hash" fields in
  obj_get "hash" fields = Some (signature env data) ->
  (forall text, obj_get "user" data = Some text -> text <> EmptyString ->
     JSON_parse text = None ->
     verifyTelegramInitData env initData = Throw SyntaxError)
  /\ (obj_get "user" data = None \/ obj_get "user" data = Some EmptyString ->
      JSON_parse "{}" = Some (JObj []) ->
      verifyTelegramInitData env initData = Normal (Some guest)).
Proof.
  intros fields data Hh. rewrite (verify_matched initData Hh). fold fields data.
  unfold identity_of. split.
  - intros text -> Hne Hparse. rewrite (proj2 (String.eqb_neq _ _) Hne), Hparse. done.
  - intros [-> | ->] Hparse; cbn [String.eqb]; rewrite Hparse; reflexivity.
Qed.
End Verifier.

(** ** Doubles *)

(** Powers of two. *)

Lemma pow2_pos k : (0 < pow2 k)%Q.
Proof. apply Qpower_0_lt. reflexivity. Qed.

Lemma pow2_le a b : a <= b -> (pow2 a <= pow2 b)%Q.
Proof. intros H. apply Qpower_le_compat_l; [exact H | discriminate]. Qed.

Lemma pow2_lt a b : a < b -> (pow2 a < pow2 b)%Q.
Proof. intros H. apply Qpower_lt_compat_l; [exact H | reflexivity]. Qed.

Lemma pow2_lt_inv a b : (pow2 a < pow2 b)%Q -> a < b.
Proof. intros H. apply (Qpower_lt_compat_l_inv 2); [exact H | reflexivity]. Qed.

Lemma pow2_add a b : (pow2 (a + b) == pow2 a * pow2 b)%Q.
Proof. apply Qpower_plus. discriminate. Qed.

Lemma pow2_Z k : 0 <= k -> (pow2 k == inject_Z (2 ^ k))%Q.
Proof. intros H. unfold pow2. by rewrite (Zpower_Qpower 2 k H). Qed.

Lemma pow2_opp k : (pow2 (- k) == / pow2 k)%Q.
Proof. apply Qpower_opp. Qed.

Lemma pow2_cancel a b : (pow2 a / pow2 b == pow2 (a - b))%Q.
Proof.
  unfold Qdiv. rewrite <- pow2_opp, <- pow2_add. by replace (a + - b) with (a - b) by lia.
Qed.

(** The exponent of a magnitude. *)

Lemma ilog2_le a : (0 < a)%Q -> (pow2 (ilog2 a) <= a)%Q.
Proof.
  intros Ha. unfold ilog2. destruct (Qle_bool 1 a) eqn:E.
  - apply Qle_bool_iff in E.
    assert (1 <= Qfloor a) as Hf.
    { change 1 with (Qfloor 1). by apply Qfloor_resp_le. }
    pose proof (Z.log2_spec (Qfloor a) ltac:(lia)) as [Hl _].
    rewrite pow2_Z by apply Z.log2_nonneg.
    apply Qle_trans with (inject_Z (Qfloor a)); [by rewrite <- Zle_Qle | apply Qfloor_le].
  - assert (a < 1)%Q as Ha1.
    { apply Qnot_le_lt. intros H%Qle_bool_iff. congruence. }
    assert (1 < / a)%Q as Hb.
    { apply Qlt_shift_inv_l; [done|]. by rewrite Qmult_1_l. }
    pose proof (Qle_ceiling (/ a)) as Hc.
    assert (1 < Qceiling (/ a)) as Hn.
    { rewrite Zlt_Qlt. eapply Qlt_le_trans; [exact Hb | exact Hc]. }
    pose proof (Z.log2_up_spec _ Hn) as [_ Hu].
    rewrite pow2_opp, pow2_Z by apply Z.log2_up_nonneg.
    rewrite Zle_Qle in Hu.
    assert (/ a <= inject_Z (2 ^ Z.log2_up (Qceiling (/ a))))%Q as H by (eapply Qle_trans; [exact Hc | exact Hu]).
    assert (0 < inject_Z (2 ^ Z.log2_up (Qceiling (/ a))))%Q as Hp by lra.
    apply Qle_shift_inv_r; [done|].
    assert (a * / a == 1)%Q as H1 by (apply Qmult_inv_r; lra).
    apply Qle_trans with (a * / a)%Q; [rewrite H1; apply Qle_refl|].
    by apply Qmult_le_l.
Qed.

Lemma ilog2_lt a : (0 < a)%Q -> (a < pow2 (ilog2 a + 1))%Q.
Proof.
  intros Ha. unfold ilog2. destruct (Qle_bool 1 a) eqn:E.
  - apply Qle_bool_iff in E.
    assert (1 <= Qfloor a) as Hf.
    { change 1 with (Qfloor 1). by apply Qfloor_resp_le. }
    pose proof (Z.log2_spec (Qfloor a) ltac:(lia)) as [_ Hl].
    pose proof (Z.log2_nonneg (Qfloor a)).
    rewrite pow2_Z by lia.
    apply Qlt_le_trans with (inject_Z (Qfloor a + 1)); [apply Qlt_floor|].
    rewrite <- Zle_Qle. unfold Z.succ in Hl. lia.
  - assert (a < 1)%Q as Ha1.
    { apply Qnot_le_lt. intros H%Qle_bool_iff. congruence. }
    assert (1 < / a)%Q as Hb.
    { apply Qlt_shift_inv_l; [done|]. by rewrite Qmult_1_l. }
    pose proof (Qle_ceiling (/ a)) as Hc.
    pose proof (Qceiling_lt (/ a)) as Hc'.
    assert (1 < Qceiling (/ a)) as Hn.
    { rewrite Zlt_Qlt. eapply Qlt_le_trans; [exact Hb | exact Hc]. }
    pose proof (Z.log2_up_spec _ Hn) as [Hu _].
    pose proof (Z.log2_up_pos _ Hn) as HL.
    set (L := Z.log2_up (Qceiling (/ a))) in *.
    replace (- L + 1) with (- (L - 1)) by lia.
    rewrite pow2_opp, pow2_Z by lia.
    replace (Z.pred L) with (L - 1) in Hu by lia.
    assert (inject_Z (2 ^ (L - 1)) < / a)%Q as H.
    { eapply Qle_lt_trans; [|exact Hc']. rewrite <- Zle_Qle. lia. }
    assert (0 < inject_Z (2 ^ (L - 1)))%Q as Hp.
    { change 0%Q with (inject_Z 0). rewrite <- Zlt_Qlt. apply Z.pow_pos_nonneg; lia. }
    apply Qlt_shift_inv_l; [done|].
    assert (a * / a == 1)%Q as H1 by (apply Qmult_inv_r; lra).
    apply Qlt_le_trans with (a * / a)%Q; [|rewrite H1; apply Qle_refl].
    by apply Qmult_lt_l.
Qed.

Lemma ilog2_bound a K : (0 < a)%Q -> (a < pow2 K)%Q -> ilog2 a < K.
Proof.
  intros Ha HK. apply pow2_lt_inv. eapply Qle_lt_trans; [by apply ilog2_le | done].
Qed.

Lemma ilog2_lower a j : (pow2 j <= a)%Q -> j <= ilog2 a.
Proof.
  intros Hj.
  assert (0 < a)%Q as Ha by (eapply Qlt_le_trans; [apply (pow2_pos j) | done]).
  assert (j < ilog2 a + 1); [|lia].
  apply pow2_lt_inv. eapply Qle_lt_trans; [exact Hj | by apply ilog2_lt].
Qed.

(** Rounding to an integer. *)

Lemma round_half_even_near x :
  (x - (1 # 2) <= inject_Z (round_half_even x) <= x + (1 # 2))%Q.
Proof.
  unfold round_half_even.
  pose proof (Qfloor_le x) as Hf. pose proof (Qlt_floor x) as Hf'.
  rewrite inject_Z_plus in Hf'. change (inject_Z 1) with 1%Q in Hf'.
  destruct (Qcompare_spec (x - inject_Z (Qfloor x)) (1 # 2)) as [E|E|E].
  - destruct (Z.even _); rewrite ?inject_Z_plus; change (inject_Z 1) with 1%Q; lra.
  - lra.
  - rewrite inject_Z_plus. change (inject_Z 1) with 1%Q. lra.
Qed.

Lemma round_half_even_Z x z : (x == inject_Z z)%Q -> round_half_even x = z.
Proof.
  intros E. unfold round_half_even.
  assert (Qfloor x = z) as -> by (by rewrite E, Qfloor_Z).
  destruct (Qcompare_spec (x - inject_Z z) (1 # 2)) as [E'|E'|E']; [lra | done | lra].
Qed.

Lemma round_half_even_floor x : Qfloor x <= round_half_even x.
Proof.
  unfold round_half_even. destruct (_ ?= _)%Q; [destruct (Z.even _)| |]; lia.
Qed.

(** Rounding to a double. *)

Lemma Qle_bool_false x y : (y < x)%Q -> Qle_bool x y = false.
Proof.
  intros H. destruct (Qle_bool x y) eqn:E; [|done]. apply Qle_bool_iff in E. lra.
Qed.

Lemma Qle_bool_true x y : (x <= y)%Q -> Qle_bool x y = true.
Proof. apply Qle_bool_iff. Qed.

Lemma Qeq_bool_false x y : ~ (x == y)%Q -> Qeq_bool x y = false.
Proof.
  intros H. destruct (Qeq_bool x y) eqn:E; [|done]. by apply Qeq_bool_iff in E.
Qed.

Lemma Qeq_bool_true x y : (x == y)%Q -> Qeq_bool x y = true.
Proof. apply Qeq_bool_iff. Qed.

Lemma round_f64_zero s a : (a == 0)%Q -> round_f64 s a = Finite s 0.
Proof. intros E. unfold round_f64. by rewrite (Qeq_bool_true _ _ E). Qed.

Lemma round_f64_spec s a :
  (0 < a)%Q ->
  let e := Z.max (ilog2 a - 52) (-1074) in
  let r := (inject_Z (round_half_even (a / pow2 e)) * pow2 e)%Q in
  round_f64 s a = (if Qle_bool (pow2 1024) r then Infinity s else Finite s r)
  /\ (a - pow2 e * (1 # 2) <= r <= a + pow2 e * (1 # 2))%Q
  /\ (-1074 <= ilog2 a -> (pow2 (ilog2 a) <= r)%Q).
Proof.
  intros Ha e r. split; [|split].
  - unfold round_f64. rewrite Qeq_bool_false; [done|]. intros E. rewrite E in Ha. lra.
  - unfold r. pose proof (pow2_pos e) as Hp.
    pose proof (round_half_even_near (a / pow2 e)) as [H1 H2].
    assert (a / pow2 e * pow2 e == a)%Q as Ea.
    { unfold Qdiv. rewrite <- Qmult_assoc, (Qmult_comm (/ _)), Qmult_inv_r; [ring|lra]. }
    apply (Qmult_le_compat_r _ _ (pow2 e)) in H1; [|lra].
    apply (Qmult_le_compat_r _ _ (pow2 e)) in H2; [|lra].
    split.
    + eapply Qle_trans; [|exact H1]. rewrite <- Ea at 1. ring_simplify. apply Qle_refl.
    + eapply Qle_trans; [exact H2|]. rewrite <- Ea at 2. ring_simplify. apply Qle_refl.
  - intros Hk. unfold r.
    assert (0 <= ilog2 a - e) as Hke by (unfold e; lia).
    assert (inject_Z (2 ^ (ilog2 a - e)) <= a / pow2 e)%Q as Hx.
    { rewrite <- pow2_Z by done. rewrite <- pow2_cancel.
      unfold Qdiv. apply Qmult_le_compat_r; [by apply ilog2_le|].
      apply Qlt_le_weak, Qinv_lt_0_compat, pow2_pos. }
    apply Qfloor_resp_le in Hx. rewrite Qfloor_Z in Hx.
    pose proof (round_half_even_floor (a / pow2 e)) as Hm.
    assert (pow2 (ilog2 a) == inject_Z (2 ^ (ilog2 a - e)) * pow2 e)%Q as ->.
    { rewrite <- pow2_Z by done. rewrite <- pow2_add. by replace (ilog2 a - e + e) with (ilog2 a) by lia. }
    apply Qmult_le_compat_r; [|apply Qlt_le_weak, pow2_pos].
    rewrite <- Zle_Qle. lia.
Qed.

(** A magnitude under 2^41 is rounded to a double at most 2^-13 away. *)
Lemma round_f64_near s a :
  (0 <= a)%Q -> (a < pow2 41)%Q ->
  exists r, round_f64 s a = Finite s r /\ (a - (1 # 8192) <= r <= a + (1 # 8192))%Q.
Proof.
  intros Ha Hlt. destruct (Qeq_dec a 0) as [E|E].
  - exists 0%Q. split; [by apply round_f64_zero | lra].
  - assert (0 < a)%Q as Ha' by (destruct (Qle_lt_or_eq _ _ Ha) as [?|E']; [done | by rewrite E' in E]).
    destruct (round_f64_spec s a Ha') as (Hr & [H1 H2] & _).
    set (e := Z.max (ilog2 a - 52) (-1074)) in *.
    set (r := (inject_Z (round_half_even (a / pow2 e)) * pow2 e)%Q) in *.
    assert (pow2 e <= 1 # 4096)%Q as He.
    { change (1 # 4096)%Q with (pow2 (-12)). apply pow2_le.
      pose proof (ilog2_bound a 41 Ha' Hlt). unfold e. lia. }
    exists r. split; [|lra].
    rewrite Hr, Qle_bool_false; [done|].
    apply Qle_lt_trans with (a + 1)%Q; [lra|].
    apply Qlt_le_trans with (pow2 42).
    + assert (pow2 42 == 2 * pow2 41)%Q as -> by (rewrite (pow2_add 1 41); reflexivity).
      assert (1 <= pow2 41)%Q by (change 1%Q with (pow2 0); apply pow2_le; lia).
      lra.
    + apply pow2_le. lia.
Qed.

(** An integer under 2^53 is a double. *)
Lemma round_f64_int s a z :
  0 <= z < 2 ^ 53 -> (a == inject_Z z)%Q ->
  exists r, round_f64 s a = Finite s r /\ (r == inject_Z z)%Q.
Proof.
  intros Hz E. destruct (Z.eq_dec z 0) as [->|Hz0].
  - exists 0%Q. split; [by apply round_f64_zero | done].
  - assert (0 < a)%Q as Ha.
    { rewrite E. change 0%Q with (inject_Z 0). rewrite <- Zlt_Qlt. lia. }
    destruct (round_f64_spec s a Ha) as (Hr & _ & _).
    set (e := Z.max (ilog2 a - 52) (-1074)) in *.
    set (r := (inject_Z (round_half_even (a / pow2 e)) * pow2 e)%Q) in *.
    assert (e <= 0) as He.
    { assert (ilog2 a < 53); [|unfold e; lia].
      apply ilog2_bound; [done|]. rewrite E, pow2_Z by lia. rewrite <- Zlt_Qlt. lia. }
    assert (a / pow2 e == inject_Z (z * 2 ^ (- e)))%Q as Ex.
    { rewrite inject_Z_mult, <- pow2_Z by lia. rewrite E, pow2_opp. reflexivity. }
    assert (r == inject_Z z)%Q as Er.
    { unfold r. rewrite (round_half_even_Z _ _ Ex), inject_Z_mult, <- pow2_Z by lia.
      rewrite <- Qmult_assoc, <- pow2_add. replace (- e + e) with 0 by lia.
      change (pow2 0) with 1%Q. ring. }
    exists r. split; [|done].
    rewrite Hr, Qle_bool_false; [done|]. rewrite Er.
    apply Qlt_le_trans with (pow2 53); [|apply pow2_le; lia].
    rewrite pow2_Z by lia. rewrite <- Zlt_Qlt. lia.
Qed.

(** From 2^j on (j at least -1074) the rounded magnitude is at least 2^j. *)
Lemma round_f64_ge s a j :
  -1074 <= j -> (pow2 j <= a)%Q ->
  round_f64 s a = Infinity s \/ exists r, round_f64 s a = Finite s r /\ (pow2 j <= r)%Q.
Proof.
  intros Hj Ha.
  assert (0 < a)%Q as Ha' by (eapply Qlt_le_trans; [apply (pow2_pos j) | done]).
  destruct (round_f64_spec s a Ha') as (Hr & _ & Hk).
  pose proof (ilog2_lower a j Ha) as Hjk.
  rewrite Hr. destruct (Qle_bool _ _); [by left|]. right. eexists. split; [done|].
  eapply Qle_trans; [apply (pow2_le j (ilog2 a) Hjk) | apply Hk; lia].
Qed.

Lemma on_grid_0 : on_grid 0.
Proof. exists 0. reflexivity. Qed.

Lemma round_f64_grid s a t r : round_f64 s a = Finite t r -> s = t /\ on_grid r.
Proof.
  unfold round_f64. destruct (Qeq_bool a 0).
  - intros [= <- <-]. split; [done | apply on_grid_0].
  - set (e := Z.max (ilog2 a - 52) (-1074)).
    destruct (Qle_bool _ _); [done|]. intros [= <- <-]. split; [done|].
    exists (round_half_even (a / pow2 e) * 2 ^ (e + 1074)).
    rewrite inject_Z_mult, <- pow2_Z by (unfold e; lia).
    rewrite <- Qmult_assoc, <- pow2_add. by replace (e + 1074 + -1074) with e by lia.
Qed.

Lemma round_f64_sign s a : match round_f64 s a with
                           | Finite t _ | Infinity t => t = s
                           | NaN => False
                           end.
Proof.
  unfold round_f64. destruct (Qeq_bool a 0); [done|]. by destruct (Qle_bool _ _).
Qed.

Lemma round_f64_nonneg s a t r : (0 <= a)%Q -> round_f64 s a = Finite t r -> (0 <= r)%Q.
Proof.
  intros Ha. unfold round_f64. destruct (Qeq_bool a 0); [by intros [= <- <-]|].
  set (e := Z.max (ilog2 a - 52) (-1074)).
  destruct (Qle_bool _ _); [done|]. intros [= <- <-].
  pose proof (pow2_pos e) as Hp.
  assert (0 <= a / pow2 e)%Q as Hx.
  { unfold Qdiv. apply Qmult_le_0_compat; [done|]. apply Qlt_le_weak, Qinv_lt_0_compat, Hp. }
  apply Qfloor_resp_le in Hx. change (Qfloor 0) with 0 in Hx.
  pose proof (round_half_even_floor (a / pow2 e)) as Hm.
  apply Qmult_le_0_compat; [|lra].
  change 0%Q with (inject_Z 0). rewrite <- Zle_Qle. lia.
Qed.

(** Doubles that are integers, differences, and the seconds elapsed. *)

Lemma Qceiling_unique r n : (inject_Z n - 1 < r <= inject_Z n)%Q -> Qceiling r = n.
Proof.
  intros [H1 H2]. pose proof (Qle_ceiling r) as Hc. pose proof (Qceiling_lt r) as Hc'.
  assert (inject_Z (Qceiling r - 1) < inject_Z n)%Q as Ha by lra.
  assert (inject_Z (n - 1) < inject_Z (Qceiling r))%Q as Hb.
  { unfold Z.sub. rewrite inject_Z_plus, inject_Z_opp. change (inject_Z 1) with 1%Q. lra. }
  rewrite <- Zlt_Qlt in Ha, Hb. lia.
Qed.

Lemma f64_value_abs z : (f64_value (z <? 0) (inject_Z (Z.abs z)) == inject_Z z)%Q.
Proof.
  unfold f64_value. destruct (Z.ltb_spec z 0).
  - rewrite <- inject_Z_opp. by replace (- Z.abs z) with z by lia.
  - by replace (Z.abs z) with z by lia.
Qed.

(** An integer under 2^53 in magnitude is a double. *)
Lemma Number_int z :
  - 2 ^ 53 < z < 2 ^ 53 ->
  exists r, Number_ (inject_Z z) = Finite (z <? 0) r
    /\ (r == inject_Z (Z.abs z))%Q /\ (f64_value (z <? 0) r == inject_Z z)%Q.
Proof.
  intros Hz. unfold Number_.
  assert (negb (Qle_bool 0 (inject_Z z)) = (z <? 0)) as ->.
  { destruct (Z.ltb_spec z 0).
    - rewrite Qle_bool_false; [done|]. change 0%Q with (inject_Z 0). rewrite <- Zlt_Qlt. lia.
    - rewrite Qle_bool_true; [done|]. change 0%Q with (inject_Z 0). rewrite <- Zle_Qle. lia. }
  destruct (round_f64_int (z <? 0) (Qabs (inject_Z z)) (Z.abs z)) as (r & Hr & Er);
    [lia | done |].
  exists r. split_and!; [done | done |].
  rewrite <- (f64_value_abs z). unfold f64_value. destruct (z <? 0); by rewrite Er.
Qed.

Lemma Number_grid q s r : Number_ q = Finite s r -> on_grid r.
Proof. unfold Number_. by intros [_ H]%round_f64_grid. Qed.

(** The difference of two finite doubles that differ. *)
Lemma f64_sub_finite s a t b :
  let d := (f64_value s a - f64_value t b)%Q in
  ~ (d == 0)%Q ->
  f64_sub (Finite s a) (Finite t b) = round_f64 (negb (Qle_bool 0 d)) (Qabs d).
Proof. intros d Hd. cbn [f64_sub]. fold d. by rewrite Qeq_bool_false. Qed.

Lemma f64_sub_pos s a t b :
  let d := (f64_value s a - f64_value t b)%Q in
  (0 < d)%Q ->
  f64_sub (Finite s a) (Finite t b) = round_f64 false (Qabs d) /\ (Qabs d == d)%Q.
Proof.
  intros d Hd. split.
  - rewrite f64_sub_finite; fold d; [|lra]. rewrite Qle_bool_true; [done|lra].
  - apply Qabs_pos. lra.
Qed.

(** The seconds between two dates at most 10^15 ms apart: within 2^-13 of the
    exact quotient, and the quotient itself for a whole number of seconds. *)
Lemma elapsed_seconds_spec now l :
  - 2 ^ 53 < now < 2 ^ 53 -> - 2 ^ 53 < l < 2 ^ 53 ->
  - 10 ^ 15 <= now - l <= 10 ^ 15 ->
  exists s r, elapsed_seconds now l = Finite s r
    /\ (inject_Z (now - l) * (1 # 1000) - (1 # 8192) <= f64_value s r
        <= inject_Z (now - l) * (1 # 1000) + (1 # 8192))%Q
    /\ (forall k, now - l = 1000 * k -> (f64_value s r == inject_Z k)%Q).
Proof.
  intros Hnow Hl Hms. unfold elapsed_seconds.
  destruct (Number_int now Hnow) as (r1 & -> & _ & E1).
  destruct (Number_int l Hl) as (r2 & -> & _ & E2).
  change (Number_ 1000) with (Number_ (inject_Z 1000)).
  destruct (Number_int 1000 ltac:(lia)) as (r3 & -> & E3 & _).
  change (1000 <? 0) with false. change (inject_Z (Z.abs 1000)) with 1000%Q in E3.
  set (s1 := now <? 0) in *. set (s2 := l <? 0) in *.
  assert (~ (r3 == 0)%Q) as Hr3 by (rewrite E3; discriminate).
  assert (forall a, a / r3 == a * (1 # 1000))%Q as Hdiv.
  { intros a. unfold Qdiv. by rewrite E3. }
  set (d := (f64_value s1 r1 - f64_value s2 r2)%Q).
  assert (d == inject_Z (now - l))%Q as Ed.
  { unfold d, Z.sub. by rewrite E1, E2, inject_Z_plus, inject_Z_opp. }
  destruct (Z.eq_dec (now - l) 0) as [E0|Hne].
  - (* the same date *)
    cbn [f64_sub]. fold d. rewrite Qeq_bool_true by (by rewrite Ed, E0).
    cbn [f64_div]. rewrite (Qeq_bool_false r3 0 Hr3).
    rewrite round_f64_zero by (rewrite Hdiv; ring).
    eexists _, _. split; [done|]. rewrite E0.
    assert (forall s, f64_value s 0 == 0)%Q as Hv by (by intros []).
    rewrite Hv. split; [split; by vm_compute|].
    intros k Hk. assert (k = 0) as -> by lia. done.
  - rewrite f64_sub_finite; fold d; [|rewrite Ed; change 0%Q with (inject_Z 0); by rewrite inject_Z_injective].
    assert (negb (Qle_bool 0 d) = (now - l <? 0)) as ->.
    { destruct (Z.ltb_spec (now - l) 0).
      - rewrite Qle_bool_false; [done|]. rewrite Ed. change 0%Q with (inject_Z 0). rewrite <- Zlt_Qlt. lia.
      - rewrite Qle_bool_true; [done|]. rewrite Ed. change 0%Q with (inject_Z 0). rewrite <- Zle_Qle. lia. }
    set (ms := now - l) in *.
    assert (Qabs d == inject_Z (Z.abs ms))%Q as Ea by (by rewrite Ed).
    destruct (round_f64_int (ms <? 0) (Qabs d) (Z.abs ms)) as (rx & -> & Ex); [lia | done |].
    cbn [f64_div]. rewrite (Qeq_bool_false r3 0 Hr3), Bool.xorb_false_r.
    assert (0 <= inject_Z (Z.abs ms) <= 1000000000000000)%Q as Hb.
    { change 0%Q with (inject_Z 0). change 1000000000000000%Q with (inject_Z (10 ^ 15)).
      rewrite <- !Zle_Qle. lia. }
    destruct (round_f64_near (ms <? 0) (rx / r3)) as (r & Hround & Hr).
    { rewrite Hdiv, Ex. lra. }
    { rewrite Hdiv, Ex. apply Qle_lt_trans with 1000000000000%Q; [lra|]. by vm_compute. }
    rewrite Hround. exists (ms <? 0), r. split; [done|].
    rewrite Hdiv, Ex in Hr. pose proof (f64_value_abs ms) as Hv.
    split.
    + unfold f64_value in *. destruct (ms <? 0); lra.
    + intros k Hk.
      destruct (round_f64_int (ms <? 0) (rx / r3) (Z.abs k)) as (r' & Hr' & Er').
      { lia. }
      { rewrite Hdiv, Ex. replace (Z.abs ms) with (1000 * Z.abs k) by lia.
        rewrite inject_Z_mult. change (inject_Z 1000) with 1000%Q. field. }
      rewrite Hround in Hr'. injection Hr' as <-.
      replace (ms <? 0) with (k <? 0) by (destruct (Z.ltb_spec k 0), (Z.ltb_spec ms 0); lia).
      rewrite <- (f64_value_abs k). unfold f64_value. destruct (k <? 0); by rewrite Er'.
Qed.

Lemma Qceiling_whole_seconds c ms :
  Qceiling (inject_Z c - inject_Z ms / 1000) = c - ms / 1000.
Proof.
  apply Qceiling_unique.
  pose proof (Z.div_mod ms 1000 ltac:(lia)) as Hdm.
  pose proof (Z.mod_pos_bound ms 1000 ltac:(lia)) as Hj.
  set (k := ms / 1000) in *. set (j := ms mod 1000) in *.
  assert (inject_Z ms / 1000 == inject_Z k + inject_Z j * (1 # 1000))%Q as ->.
  { rewrite Hdm, inject_Z_plus, inject_Z_mult. change (inject_Z 1000) with 1000%Q. field. }
  assert (0 <= inject_Z j <= 999)%Q as Hj'.
  { change 0%Q with (inject_Z 0). change 999%Q with (inject_Z 999). rewrite <- !Zle_Qle. lia. }
  unfold Z.sub. rewrite inject_Z_plus, inject_Z_opp. lra.
Qed.

(** ** The test of lines 92-95 *)

(** A caller who is refused is never told that nothing remains: [left] is a
    whole number of seconds, at least 1 (or Infinity, for a cooldown that is
    no double). *)
Lemma cooldown_left_positive now last cooldown left_ :
  cooldown_left now last (Number_ cooldown) = Some left_ ->
  left_ = Infinity false \/ exists n, 1 <= n /\ left_ = Finite false (inject_Z n).
Proof.
  unfold cooldown_left. destruct last as [l|]; [|done].
  set (E := elapsed_seconds now l). set (C := Number_ cooldown).
  destruct (f64_ltb E C) eqn:Hlt; [|done]. intros [= <-].
  assert (match E with Finite _ r => on_grid r | _ => True end) as HE.
  { unfold E, elapsed_seconds. destruct (f64_sub _ _) as [s a| |]; [|done|done].
    destruct (Number_ 1000) as [t b| |] eqn:E3; [|done|done]. cbn [f64_div].
    destruct (Qeq_bool b 0); [by destruct (Qeq_bool a 0)|].
    destruct (round_f64 _ _) eqn:Er; [|done|done]. by apply round_f64_grid in Er as [_ ?]. }
  assert (match C with Finite _ r => on_grid r | Infinity _ => True | NaN => False end) as HC.
  { unfold C, Number_. pose proof (round_f64_sign (negb (Qle_bool 0 cooldown)) (Qabs cooldown)).
    destruct (round_f64 _ _) eqn:Er; [|done|done]. by apply round_f64_grid in Er as [_ ?]. }
  destruct C as [sc rc|sc|], E as [se re|se|]; try done; cbn [f64_ltb] in Hlt.
  - (* two finite doubles *)
    apply Bool.negb_true_iff in Hlt.
    assert (0 < f64_value sc rc - f64_value se re)%Q as Hd.
    { destruct (Qlt_le_dec (f64_value se re) (f64_value sc rc)) as [?|H]; [lra|].
      apply Qle_bool_iff in H. congruence. }
    destruct (f64_sub_pos sc rc se re Hd) as [-> Ea].
    destruct HC as [Mc Hc], HE as [Me He].
    set (g := pow2 (-1074)) in *. pose proof (pow2_pos (-1074)) as Hg. fold g in Hg.
    set (D := (if sc then - Mc else Mc) - (if se then - Me else Me)).
    assert (f64_value sc rc - f64_value se re == inject_Z D * g)%Q as ED.
    { unfold D, Z.sub. rewrite inject_Z_plus, inject_Z_opp. unfold f64_value.
      destruct sc, se; rewrite ?inject_Z_opp, Hc, He; ring. }
    assert (1 <= D) as HD.
    { destruct (Z.le_gt_cases D 0) as [H|H]; [|lia]. exfalso.
      rewrite Zle_Qle in H. change (inject_Z 0) with 0%Q in H.
      assert (inject_Z D * g <= 0 * g)%Q as H' by (apply Qmult_le_compat_r; lra).
      lra. }
    destruct (round_f64_ge false (Qabs (f64_value sc rc - f64_value se re)) (-1074))
      as [->|(r & -> & Hr)]; [lia | | by left |].
    { rewrite Ea, ED. fold g. rewrite Zle_Qle in HD. change (inject_Z 1) with 1%Q in HD.
      assert (1 * g <= inject_Z D * g)%Q as H' by (apply Qmult_le_compat_r; lra).
      lra. }
    right. fold g in Hr. cbn [Math_ceil f64_value].
    pose proof (Qle_ceiling r) as Hc'.
    assert (0 < Qceiling r) as Hpos.
    { rewrite Zlt_Qlt. change (inject_Z 0) with 0%Q. lra. }
    exists (Qceiling r). split; [lia|]. by rewrite Z.abs_eq by lia.
  - destruct se; [|done]. by left.
  - destruct sc; [done|]. by left.
  - destruct se, sc; try done. by left.
Qed.

(** For a cooldown of a whole number of seconds the doubles of lines 92-93
    give what exact arithmetic gives: the reward is let through from
    [1000 * c] ms on, and before that [left] is [c] minus the whole seconds
    elapsed, the ceiling of [c - elapsed]. *)
Lemma cooldown_left_whole_seconds c now l :
  - 2 ^ 53 < now < 2 ^ 53 -> - 2 ^ 53 < l < 2 ^ 53 ->
  - 10 ^ 15 <= now - l <= 10 ^ 15 -> - 10 ^ 12 <= c <= 10 ^ 12 ->
  cooldown_left now (Some l) (Number_ (inject_Z c))
  = if now - l <? 1000 * c
    then Some (Finite false (inject_Z (c - (now - l) / 1000)))
    else None.
Proof.
  intros Hnow Hl Hms Hc. unfold cooldown_left.
  destruct (elapsed_seconds_spec now l Hnow Hl Hms) as (s & r & -> & Hv & Hexact).
  destruct (Number_int c ltac:(lia)) as (rc & -> & _ & Ec).
  set (ms := now - l) in *. set (v := f64_value s r) in *.
  set (sc := c <? 0) in *. set (vc := f64_value sc rc) in *.
  pose proof (Z.div_mod ms 1000 ltac:(lia)) as Hdm.
  pose proof (Z.mod_pos_bound ms 1000 ltac:(lia)) as Hj.
  set (k := ms / 1000) in *. set (j := ms mod 1000) in *.
  assert (inject_Z ms * (1 # 1000) == inject_Z k + inject_Z j * (1 # 1000))%Q as Ems.
  { rewrite Hdm, inject_Z_plus, inject_Z_mult. change (inject_Z 1000) with 1000%Q. field. }
  assert (j = 0 -> (v == inject_Z k)%Q) as H0.
  { intros Hj0. apply Hexact. lia. }
  assert (j <> 0 -> (inject_Z k + (1 # 1000) - (1 # 8192) <= v
                     <= inject_Z k + (999 # 1000) + (1 # 8192))%Q) as H1.
  { intros Hj0.
    assert (1 <= inject_Z j <= 999)%Q as Hj'.
    { change 1%Q with (inject_Z 1). change 999%Q with (inject_Z 999).
      rewrite <- !Zle_Qle. lia. }
    lra. }
  assert (- (1000000000000) <= inject_Z k <= 1000000000000)%Q as Hk.
  { change 1000000000000%Q with (inject_Z (10 ^ 12)). rewrite <- inject_Z_opp, <- !Zle_Qle.
    unfold k. split; [apply Z.div_le_lower_bound | apply Z.div_le_upper_bound]; lia. }
  assert (- (1000000000000) <= inject_Z c <= 1000000000000)%Q as Hc'.
  { change 1000000000000%Q with (inject_Z (10 ^ 12)). rewrite <- inject_Z_opp, <- !Zle_Qle. lia. }
  cbn [f64_ltb]. fold v vc.
  destruct (Z.ltb_spec ms (1000 * c)) as [Hlt|Hge].
  - (* refused *)
    assert (k + 1 <= c) as Hkc by lia.
    assert (inject_Z k + 1 <= inject_Z c)%Q as Hkc'.
    { change 1%Q with (inject_Z 1). rewrite <- inject_Z_plus, <- Zle_Qle. lia. }
    assert (v < vc)%Q as Hvc.
    { destruct (Z.eq_dec j 0) as [Hj0|Hj0]; [pose proof (H0 Hj0) | pose proof (H1 Hj0)]; lra. }
    rewrite (Qle_bool_false _ _ Hvc). cbn [negb]. f_equal.
    destruct (f64_sub_pos sc rc s r) as [-> Ea]; [fold v vc; lra|]. fold v vc in Ea |- *.
    assert (inject_Z (c - k) == inject_Z c - inject_Z k)%Q as Eck.
    { unfold Z.sub. by rewrite inject_Z_plus, inject_Z_opp. }
    destruct (Z.eq_dec j 0) as [Hj0|Hj0].
    + destruct (round_f64_int false (Qabs (vc - v)) (c - k)) as (r' & -> & Er'); [lia| |].
      { rewrite Ea, Eck. pose proof (H0 Hj0). lra. }
      cbn [Math_ceil f64_value]. rewrite Er', Qceiling_Z. by rewrite Z.abs_eq by lia.
    + destruct (round_f64_near false (Qabs (vc - v))) as (r' & -> & Hr').
      { rewrite Ea. lra. }
      { rewrite Ea. apply Qle_lt_trans with 2000000000001%Q; [|by vm_compute].
        pose proof (H1 Hj0). lra. }
      cbn [Math_ceil f64_value]. rewrite (Qceiling_unique r' (c - k)).
      * by rewrite Z.abs_eq by lia.
      * rewrite Ea in Hr'. pose proof (H1 Hj0). rewrite Eck. lra.
  - (* let through *)
    assert (c <= k) as Hkc by lia.
    assert (inject_Z c <= inject_Z k)%Q as Hkc' by (by rewrite <- Zle_Qle).
    rewrite Qle_bool_true; [done|].
    destruct (Z.eq_dec j 0) as [Hj0|Hj0]; [pose proof (H0 Hj0) | pose proof (H1 Hj0)]; lra.
Qed.

(** A date before the last reward counts as a negative time elapsed: under a
    cooldown that is not negative the request is refused. *)
Lemma cooldown_left_before now l cooldown :
  - 2 ^ 53 < now < 2 ^ 53 -> - 2 ^ 53 < l < 2 ^ 53 -> now < l -> (0 <= cooldown)%Q ->
  f64_ltb (elapsed_seconds now l) (Number_ cooldown) = true.
Proof.
  intros Hnow Hl Hlt Hc. unfold elapsed_seconds.
  destruct (Number_int now Hnow) as (r1 & -> & _ & E1).
  destruct (Number_int l Hl) as (r2 & -> & _ & E2).
  change (Number_ 1000) with (Number_ (inject_Z 1000)).
  destruct (Number_int 1000 ltac:(lia)) as (r3 & -> & E3 & _).
  change (1000 <? 0) with false. change (inject_Z (Z.abs 1000)) with 1000%Q in E3.
  set (d := (f64_value (now <? 0) r1 - f64_value (l <? 0) r2)%Q).
  assert (d == inject_Z (now - l))%Q as Ed.
  { unfold d, Z.sub. by rewrite E1, E2, inject_Z_plus, inject_Z_opp. }
  assert (d <= -1)%Q as Hd.
  { rewrite Ed. change (-1)%Q with (inject_Z (-1)). rewrite <- Zle_Qle. lia. }
  rewrite f64_sub_finite; fold d; [|lra].
  rewrite (Qle_bool_false 0 d) by lra. cbn [negb].
  assert (Qabs d == - d)%Q as Ea by (apply Qabs_neg; lra).
  assert (exists s rc, Number_ cooldown = Infinity false
                       \/ Number_ cooldown = Finite s rc /\ (0 <= f64_value s rc)%Q)
    as (sc & rc & HC).
  { unfold Number_. rewrite Qle_bool_true by done. cbn [negb].
    pose proof (round_f64_sign false (Qabs cooldown)) as Hs.
    destruct (round_f64 false (Qabs cooldown)) as [s r|s|] eqn:Er; [|subst|done].
    - exists s, r. right. split; [done|]. subst s. cbn [f64_value].
      eapply round_f64_nonneg; [apply Qabs_nonneg | exact Er].
    - exists false, 0%Q. by left. }
  assert (forall r, (0 < r)%Q -> f64_ltb (Finite true r) (Number_ cooldown) = true) as Hfin.
  { intros r Hr. destruct HC as [-> | [-> Hv]]; [done|]. cbn [f64_ltb f64_value].
    rewrite Qle_bool_false; [done|lra]. }
  assert (f64_ltb (Infinity true) (Number_ cooldown) = true) as Hinf.
  { by destruct HC as [-> | [-> Hv]]. }
  destruct (round_f64_ge true (Qabs d) 0) as [->|(rx & -> & Hrx)]; [lia | | done |].
  { change (pow2 0) with 1%Q. lra. }
  change (pow2 0) with 1%Q in Hrx. cbn [f64_div].
  rewrite Qeq_bool_false by (rewrite E3; discriminate). cbn [xorb].
  destruct (round_f64_ge true (rx / r3) (-10)) as [->|(re & -> & Hre)]; [lia | | done |].
  - change (pow2 (-10)) with (1 # 1024)%Q. unfold Qdiv. rewrite E3.
    change (/ 1000)%Q with (1 # 1000)%Q. lra.
  - apply Hfin. pose proof (pow2_pos (-10)). lra.
Qed.

(** ** Handlers run alone *)

Section Handlers.
Context {platform : Platform} {store : Store} (env : Env).

Lemma select_user_Some uid d u :
  users d !! uid = Some u -> select_user uid d = Data u.
Proof. unfold select_user. by intros ->. Qed.

Lemma select_user_updated uid d u p ev :
  users d !! uid = Some u ->
  select_user uid (insert_ad_event ev (update_user uid p d)) = Data (patch_user p u).
Proof.
  intros Hu. apply select_user_Some. cbn [users insert_ad_event update_user].
  by rewrite lookup_alter_eq, Hu.
Qed.

(** What the reward handler answers when it runs alone on a store that
    holds the caller's row. *)
Lemma run_reward_ad uid now d u :
  users d !! uid = Some u ->
  run (reward_ad env uid) now d =
    match cooldown_left now (last_ad_at u) (Number_ (default 10%Q (COOLDOWN_SEC env))) with
    | Some left_ => (json 429 (BCooldown left_), d)
    | None =>
        let b := default 0 (balance u) + default 10 (REWARD_PER_AD env) in
        (json 200 (BBalance (Some b) (Some now)),
         insert_ad_event {| ae_user_id := uid; ae_reward := default 10 (REWARD_PER_AD env) |}
           (update_user uid {| p_balance := b; p_last_ad_at := Some now |} d))
    end.
Proof.
  intros Hu. unfold reward_ad. cbn [run]. rewrite (select_user_Some _ _ _ Hu).
  cbn [data mbind option_bind]. destruct (cooldown_left _ _ _) as [l|]; [done|].
  cbn [run]. rewrite (select_user_updated uid d u _ _ Hu). reflexivity.
Qed.

(** C5.  For every [now], [last_ad_at] and configured cooldown, the test of
    lines 92-95 is carried out on doubles: the reward is let through if and
    only if [last_ad_at] is absent or the seconds elapsed, the double
    (now - last_ad_at) / 1000, are not below the cooldown; otherwise the
    answer carries [left], Math.ceil of the double cooldown - elapsed, and
    [left] is a whole number of seconds that is at least 1 (Infinity for a
    cooldown beyond the doubles): a blocked caller is never told that 0
    seconds remain.  For a cooldown of a whole number of seconds this is
    what exact arithmetic gives: let through exactly when the elapsed time
    is at least the cooldown, and otherwise
    left = ceiling(cooldown - elapsed).  With a cooldown of 10 s: 5 s elapsed
    gives left = 5, 10 s elapsed passes, and an absent [last_ad_at] passes.
    A blocked reward request is answered 429 with that [left] and leaves the
    store as it was. *)
Theorem cooldown_gate (now : Z) (last : option Z) (cooldown : Q) :
  let COOLDOWN := Number_ cooldown in
  (cooldown_left now last COOLDOWN = None
     <-> last = None
         \/ exists l, last = Some l /\ f64_ltb (elapsed_seconds now l) COOLDOWN = false)
  /\ (forall left_, cooldown_left now last COOLDOWN = Some left_ ->
        (exists l, last = Some l
           /\ f64_ltb (elapsed_seconds now l) COOLDOWN = true
           /\ left_ = Math_ceil (f64_sub COOLDOWN (elapsed_seconds now l)))
        /\ (left_ = Infinity false \/ exists n, 1 <= n /\ left_ = Finite false (inject_Z n)))
  /\ (forall c l,
        cooldown = inject_Z c -> - 10 ^ 12 <= c <= 10 ^ 12 ->
        last = Some l -> - 2 ^ 53 < now < 2 ^ 53 -> - 2 ^ 53 < l < 2 ^ 53 ->
        - 10 ^ 15 <= now - l <= 10 ^ 15 ->
        let elapsed := (inject_Z (now - l) / 1000)%Q in
        cooldown_left now last COOLDOWN
        = if Qle_bool cooldown elapsed
          then None
          else Some (Finite false (inject_Z (Qceiling (cooldown - elapsed)))))
  /\ (- 2 ^ 53 + 10000 < now < 2 ^ 53 ->
      cooldown_left now (Some (now - 5000)) (Number_ 10) = Some (Finite false 5)
      /\ cooldown_left now (Some (now - 10000)) (Number_ 10) = None)
  /\ cooldown_left now None (Number_ 10) = None
  /\ (forall uid d u left_,
        users d !! uid = Some u -> last_ad_at u = last ->
        default 10%Q (COOLDOWN_SEC env) = cooldown ->
        cooldown_left now last COOLDOWN = Some left_ ->
        run (reward_ad env uid) now d = (json 429 (BCooldown left_), d)).
Proof.
  intros COOLDOWN. split_and!.
  - unfold cooldown_left. destruct last as [l|]; [|naive_solver].
    destruct (f64_ltb _ _) eqn:E.
    + split; [done|]. intros [?|(l' & [= <-] & E')]; [done | congruence].
    + split; [|done]. intros _. right. by exists l.
  - intros left_ Hleft. split; [|by apply (cooldown_left_positive now last cooldown)].
    unfold cooldown_left in Hleft. destruct last as [l|]; [|done].
    destruct (f64_ltb _ _) eqn:E; [|done]. injection Hleft as <-. by exists l.
  - intros c l -> Hc -> Hnow Hl Hms elapsed. unfold COOLDOWN.
    rewrite (cooldown_left_whole_seconds c now l Hnow Hl Hms Hc).
    unfold elapsed. rewrite Qceiling_whole_seconds.
    assert (inject_Z (now - l) / 1000 == inject_Z (now - l) * (1 # 1000))%Q as E by reflexivity.
    destruct (Z.ltb_spec (now - l) (1000 * c)) as [Hlt|Hge].
    + rewrite Qle_bool_false; [done|]. rewrite E.
      rewrite Zlt_Qlt, inject_Z_mult in Hlt. change (inject_Z 1000) with 1000%Q in Hlt. lra.
    + rewrite Qle_bool_true; [done|]. rewrite E.
      rewrite Zle_Qle, inject_Z_mult in Hge. change (inject_Z 1000) with 1000%Q in Hge. lra.
  - intros Hnow. change (Number_ 10) with (Number_ (inject_Z 10)). split.
    + rewrite (cooldown_left_whole_seconds 10 now (now - 5000)) by lia.
      by replace (now - (now - 5000)) with 5000 by lia.
    + rewrite (cooldown_left_whole_seconds 10 now (now - 10000)) by lia.
      by replace (now - (now - 10000)) with 10000 by lia.
  - reflexivity.
  - intros uid d u left_ Hu <- <- Hl. fold COOLDOWN.
    rewrite (run_reward_ad uid now d u Hu). fold COOLDOWN. by rewrite Hl.
Qed.

Lemma ToInt32_small x : - 2 ^ 31 <= x < 2 ^ 31 -> ToInt32 x = x.
Proof. intros Hx. unfold ToInt32. rewrite Z.mod_small; lia. Qed.

Lemma admission_cases amount user_balance :
  admission env amount user_balance =
    if ToInt32 amount <? minCoins env then BelowMinimum
    else if default 0 user_balance <? amount then InsufficientBalance
    else Accepted.
Proof. reflexivity. Qed.

(** What the withdraw handler answers when it runs alone on a store that
    holds the caller's row, for a body with all three fields. *)
Lemma run_withdraw uid b now d u meth acct amount :
  users d !! uid = Some u ->
  method b = Some meth -> meth <> EmptyString ->
  account b = Some acct -> acct <> EmptyString ->
  amount_coins b = Some amount -> amount <> 0 ->
  run (withdraw env uid b) now d =
    match admission env amount (balance u) with
    | BelowMinimum => (json 400 (BError ("min " +:+ pretty (minCoins env) +:+ " coins")), d)
    | InsufficientBalance => (json 400 (BError "insufficient balance"), d)
    | Accepted =>
        (json 200 BOk,
         update_user uid {| p_balance := default 0 (balance u) - amount;
                            p_last_ad_at := None |}
           (insert_withdraw_request uid meth acct amount d))
    end.
Proof.
  intros Hu Hm Hm' Ha Ha' Hc Hc'. unfold withdraw, present.
  rewrite Hm, Ha, Hc. cbn [default from_option Datatypes.id].
  rewrite (proj2 (String.eqb_neq _ _) Hm'), (proj2 (String.eqb_neq _ _) Ha').
  rewrite (proj2 (Z.eqb_neq _ _) Hc'). cbn [negb orb run].
  rewrite (select_user_Some uid d u Hu), admission_cases. cbn [data].
  destruct (ToInt32 amount <? minCoins env); [done|].
  destruct (default 0 (balance u) <? amount); done.
Qed.

(** On integer amounts in the signed 32-bit range, where [x | 0] is [x], the
    two tests are those of the specification: below rate * minUnits first,
    then above the balance. *)
Lemma admission_in_range (amount balance_ rate minUnits : Z) :
  default 100 (COINS_PER_USDT env) = rate ->
  default 20 (MIN_WITHDRAW_USDT env) = minUnits ->
  - 2 ^ 31 <= amount < 2 ^ 31 ->
  minCoins env = rate * minUnits
  /\ (amount < rate * minUnits -> admission env amount (Some balance_) = BelowMinimum)
  /\ (rate * minUnits <= amount -> balance_ < amount ->
      admission env amount (Some balance_) = InsufficientBalance)
  /\ (rate * minUnits <= amount -> amount <= balance_ ->
      admission env amount (Some balance_) = Accepted)
  /\ (rate = 100 -> minUnits = 20 ->
      (amount = 1999 -> admission env amount (Some balance_) = BelowMinimum)
      /\ (amount = 2000 -> balance_ = 2000 -> admission env amount (Some balance_) = Accepted)
      /\ (amount = 2000 -> balance_ = 1999 ->
          admission env amount (Some balance_) = InsufficientBalance)).
Proof.
  intros Hr Hm Hrange.
  assert (minCoins env = rate * minUnits) as Hmin by (unfold minCoins; by rewrite Hr, Hm).
  rewrite admission_cases, ToInt32_small, Hmin by done. cbn [default from_option Datatypes.id].
  split; [done|]. split_and!.
  - intros. by rewrite (proj2 (Z.ltb_lt _ _)).
  - intros. rewrite (proj2 (Z.ltb_ge _ _)) by done. by rewrite (proj2 (Z.ltb_lt _ _)).
  - intros. by rewrite !(proj2 (Z.ltb_ge _ _)).
  - intros -> ->. split_and!; intros; subst; reflexivity.
Qed.

(** The admin test on the list that line 129 computes: a caller outside it
    is answered 403 "forbidden" whatever the action, and a caller in it 400
    "bad action" for an action that is neither "approve" nor "reject"; both
    before any store call. *)
Lemma admin_list_gate (rid action : string) (admin : option string) :
  let callerIdentity := default "undefined" admin in
  (callerIdentity ∉ adminIds env ->
   admin_withdraw env rid action admin = json 403 (BError "forbidden"))
  /\ (callerIdentity ∈ adminIds env -> action ∉ ["approve"; "reject"] ->
      admin_withdraw env rid action admin = json 400 (BError "bad action")).
Proof.
  intros caller. unfold admin_withdraw. fold caller. split.
  - intros Hn. by rewrite bool_decide_eq_false_2.
  - intros Hin Hact. rewrite bool_decide_eq_true_2 by done.
    by rewrite bool_decide_eq_false_2.
Qed.

(** C8.  The list of line 129 is not the configured set of admins: the blank
    entries of ADMIN_IDS stay in it.  Whenever ADMIN_IDS is unset or empty,
    or holds a blank entry (a trailing comma, two commas in a row), the
    empty string is in the list, and a call with [?admin=] (the empty caller
    identity, which nobody configured) is not answered 403: with the action
    "approve" or "reject" it is answered 200 and the status of the request
    is overwritten. *)
Theorem empty_caller_passes_admin_gate (rid action : string) (now : Z) (d : Db) :
  ADMIN_IDS env = None \/ ADMIN_IDS env = Some EmptyString
  \/ (exists e, e ∈ split "," (default EmptyString (ADMIN_IDS env)) /\ trim e = EmptyString) ->
  action ∈ ["approve"; "reject"] ->
  EmptyString ∈ adminIds env
  /\ run (admin_withdraw env rid action (Some EmptyString)) now d
     = (json 200 BOk, update_withdraw_request rid action d).
Proof.
  intros Hblank Haction.
  assert (EmptyString ∈ adminIds env) as Hin.
  { unfold adminIds. destruct Hblank as [-> | [-> | (e & He & Ht)]].
    - by apply list_elem_of_singleton.
    - by apply list_elem_of_singleton.
    - apply list_elem_of_fmap. exists e. by split. }
  split; [done|]. unfold admin_withdraw. cbn [default from_option].
  by rewrite !bool_decide_eq_true_2.
Qed.

(** C9.  For every store and every withdraw request in it, whatever its
    current status, an approval call by a listed caller with a valid action
    sets the status of the requests with that id to the action and answers
    200: there is no test of the current status.  Nothing else changes:
    the other fields and the other requests, the users, the ad events. *)
Theorem approval_overwrites_status (rid action : string) (admin : option string)
    (now : Z) (d : Db) :
  default "undefined" admin ∈ adminIds env ->
  action ∈ ["approve"; "reject"] ->
  let r := run (admin_withdraw env rid action admin) now d in
  r.1 = json 200 BOk
  /\ users r.2 = users d
  /\ ad_events r.2 = ad_events d
  /\ length (withdraw_requests r.2) = length (withdraw_requests d)
  /\ forall i w, withdraw_requests d !! i = Some w ->
       exists w', withdraw_requests r.2 !! i = Some w'
         /\ (wr_id w = rid ->
             wr_status w' = action /\ wr_id w' = wr_id w /\ wr_user_id w' = wr_user_id w
             /\ wr_method w' = wr_method w /\ wr_account w' = wr_account w
             /\ wr_amount_coins w' = wr_amount_coins w)
         /\ (wr_id w <> rid -> w' = w).
Proof.
  intros Hadmin Haction r. unfold r, admin_withdraw.
  rewrite !bool_decide_eq_true_2 by done. unfold json. cbn [negb run fst snd].
  unfold update_withdraw_request. cbn [users ad_events withdraw_requests].
  split_and!; try done.
  - by rewrite length_fmap.
  - intros i w Hi. exists (set_status rid action w).
    rewrite list_lookup_fmap, Hi. split; [done|]. unfold set_status.
    destruct (String.eqb_spec (wr_id w) rid); split; done.
Qed.

Lemma upsert_preserves_funds u d : preserves_funds d (upsert_user u d).
Proof.
  intros uid old Hold. unfold upsert_user. cbn [users].
  destruct (decide (id u = uid)) as [<-|Hne].
  - rewrite Hold, lookup_insert_eq. eauto.
  - rewrite lookup_insert_ne by done. eauto.
Qed.

Lemma preserves_funds_refl d : preserves_funds d d.
Proof. intros uid u Hu. eauto. Qed.

Lemma resume_identity_only failure t p d :
  identity_only p ->
  identity_only (resume failure t p d).1 /\ preserves_funds d (resume failure t p d).2.
Proof.
  intros Hp. destruct Hp, failure; cbn [resume fst snd];
    auto using preserves_funds_refl, upsert_preserves_funds, identity_only.
Qed.

(** C10.  For every existing user, a successful re-authentication replaces
    the name, username and email of the row of that id and leaves its
    balance and [last_ad_at] as they were; the other rows and tables are
    untouched.  This holds step by step: every resumption of the handler,
    whatever the store has become in between, preserves the balance and
    [last_ad_at] of every row. *)
Theorem auth_preserves_funds (initData : string) (user : Identity) (now : Z)
    (d : Db) (old : User) :
  initData <> EmptyString ->
  verifyTelegramInitData env initData = Normal (Some user) ->
  users d !! id user = Some old ->
  let r := run (post_auth env (Some initData)) now d in
  let new := {| u_name := name user; u_username := username user; u_email := email user;
                balance := balance old; last_ad_at := last_ad_at old |} in
  r.1 = json 200 (BAuth (sign env now user) (Some new))
  /\ users r.2 !! id user = Some new
  /\ (forall uid, uid <> id user -> users r.2 !! uid = users d !! uid)
  /\ ad_events r.2 = ad_events d
  /\ withdraw_requests r.2 = withdraw_requests d
  /\ exists inv : Prog -> Prop,
       inv (post_auth env (Some initData))
       /\ forall p failure t d0, inv p ->
            inv (resume failure t p d0).1 /\ preserves_funds d0 (resume failure t p d0).2.
Proof.
  intros Hne Hv Hold r new. unfold r, post_auth.
  destruct initData as [|a s]; [done|]. rewrite Hv. cbn [run].
  assert (users (upsert_user user d) !! id user = Some new) as Hnew.
  { unfold upsert_user. cbn [users]. by rewrite Hold, lookup_insert_eq. }
  rewrite (select_user_Some _ _ _ Hnew). unfold json. cbn [run data fst snd].
  split_and!; try done.
  - intros uid Huid. unfold upsert_user. cbn [users]. by rewrite lookup_insert_ne.
  - exists identity_only. split.
    + repeat constructor.
    + intros p failure t d0. apply resume_identity_only.
Qed.
End Handlers.

(** ** The ledger under interleaving *)

Section Ledger.
Context {platform : Platform} {store : Store} (env : Env).

Hypothesis REWARD_nonneg : 0 <= default 10 (REWARD_PER_AD env).
Hypothesis default_balance_nonneg : forall b, default_balance = Some b -> 0 <= b.

Lemma balance_ok_default u : balance_ok u -> 0 <= default 0 (balance u).
Proof. unfold balance_ok. destruct (balance u) as [b|]; cbn; [auto | lia]. Qed.

Lemma reward_ad_safe uid : funds_safe (reward_ad env uid).
Proof.
  unfold reward_ad. constructor. intros r Hr. constructor. intros now.
  destruct (cooldown_left _ _ _); [constructor|].
  destruct r as [u|msg]; cbn [data]; [|constructor].
  constructor.
  - cbn [p_balance]. specialize (Hr u eq_refl). apply balance_ok_default in Hr. lia.
  - intros [msg|]; repeat constructor. intros r' _. destruct (data r'); constructor.
Qed.

Lemma withdraw_safe uid b : funds_safe (withdraw env uid b).
Proof.
  unfold withdraw. destruct (_ || _); [constructor|].
  constructor. intros r Hr. destruct (_ <? _); [constructor|].
  destruct r as [u|msg]; cbn [data]; [|constructor].
  destruct (Z.ltb_spec (default 0 (balance u)) (default 0 (amount_coins b))); [constructor|].
  repeat constructor. cbn [p_balance]. lia.
Qed.

Lemma handle_safe now req : funds_safe (handle env now req).
Proof.
  destruct req; cbn [handle]; unfold auth;
    try (destruct (jwt_verify _ _ _); [|constructor]).
  - unfold post_auth. destruct initData as [[|a s]|]; try constructor.
    destruct (verifyTelegramInitData _ _) as [[u|]|e]; repeat constructor.
  - unfold get_me. constructor. intros [u|msg] _; constructor.
  - apply reward_ad_safe.
  - apply withdraw_safe.
  - unfold admin_withdraw. repeat (case_match; try constructor). constructor.
  - constructor.
Qed.

Lemma upsert_balances_ok u d : balances_ok d -> balances_ok (upsert_user u d).
Proof.
  intros Hd uid row. unfold upsert_user. cbn [users].
  destruct (decide (id u = uid)) as [<-|Hne].
  - rewrite lookup_insert_eq. intros [= <-].
    destruct (users d !! id u) as [old|] eqn:Hold; intros b; cbn [balance].
    + by apply (Hd _ _ Hold).
    + apply default_balance_nonneg.
  - rewrite lookup_insert_ne by done. apply Hd.
Qed.

Lemma update_balances_ok uid p d :
  0 <= p_balance p -> balances_ok d -> balances_ok (update_user uid p d).
Proof.
  intros Hp Hd uid' row. unfold update_user. cbn [users].
  destruct (decide (uid = uid')) as [<-|Hne].
  - rewrite lookup_alter_eq. destruct (users d !! uid) as [old|]; [|done].
    intros [= <-] b. cbn. by intros [= <-].
  - rewrite lookup_alter_ne by done. apply Hd.
Qed.

Lemma resume_ok failure now p d :
  funds_safe p -> balances_ok d ->
  funds_safe (resume failure now p d).1 /\ balances_ok (resume failure now p d).2.
Proof.
  intros Hp Hd. destruct Hp as [r|e|k Hk|u k Hk|uid k Hk|uid p k Hp Hk|ev k Hk|? ? ? ? k Hk|? ? k Hk];
    destruct failure as [msg|]; cbn [resume fst snd];
    auto using funds_safe, upsert_balances_ok, update_balances_ok.
  - split; [|done]. apply Hk. intros u [=].
  - split; [|done]. apply Hk. intros u. unfold select_user.
    destruct (users d !! uid) as [row|] eqn:Hrow; intros [= <-]. by apply (Hd _ _ Hrow).
Qed.

Lemma step_ok w e : world_ok w -> world_ok (step env w e).
Proof.
  intros [Hd Ht]. destruct e as [ms|req|i failure]; cbn [step].
  - done.
  - split; [done|]. cbn [threads]. apply Forall_app. split; [done|].
    constructor; [apply handle_safe | constructor].
  - destruct (threads w !! i) as [p|] eqn:Hp; [|done].
    assert (funds_safe p) as Hsafe by (by eapply (proj1 (Forall_lookup _ _) Ht)).
    destruct (resume_ok failure (clock w) p (db w) Hsafe Hd) as [Hp' Hd'].
    destruct (resume _ _ _ _) as [p' d']. split; [done|]. cbn [threads].
    by apply Forall_insert.
Qed.

Lemma exec_ok w es : world_ok w -> world_ok (exec env w es).
Proof.
  unfold exec. revert w. induction es as [|e es IH]; intros w Hw; [done|].
  cbn [foldl]. by apply IH, step_ok.
Qed.
End Ledger.

Section Sequential.
Context {platform : Platform} {store : Store} (env : Env).

Lemma credits_balance uid times : forall d u,
  users d !! uid = Some u ->
  spaced env (last_ad_at u) times ->
  exists u', users (credits env uid times d) !! uid = Some u'
    /\ balance u' = (if times is [] then balance u else
                     Some (default 0 (balance u)
                           + Z.of_nat (length times) * default 10 (REWARD_PER_AD env)))
    /\ last_ad_at u' = (if times is [] then last_ad_at u else last times).
Proof.
  induction times as [|t times IH]; intros d u Hu Hchain; [by exists u|].
  destruct Hchain as [Hadm Hchain]. cbn [credits].
  rewrite (run_reward_ad env uid t d u Hu), Hadm. cbn [snd].
  set (p := {| p_balance := _; p_last_ad_at := _ |}).
  set (d' := insert_ad_event _ _).
  assert (users d' !! uid = Some (patch_user p u)) as Hu'.
  { unfold d'. cbn [users insert_ad_event update_user]. by rewrite lookup_alter_eq, Hu. }
  destruct (IH d' _ Hu' Hchain) as (u' & Hlook & Hbal & Hlast).
  exists u'. split; [done|]. rewrite Hbal, Hlast.
  cbn [patch_user balance last_ad_at p_balance p_last_ad_at p].
  destruct times as [|t' times]; [split; [f_equal; cbn; lia | done]|].
  split; [|done]. f_equal. cbn [default from_option Datatypes.id].
  rewrite !length_cons. lia.
Qed.

(** C2, amended.  The reward handler reads the row once and writes later, in
    a separate store call: when it resumes after the read it tests the
    cooldown against the [last_ad_at] it read, and if that passes it is
    suspended on an update that assigns the balance it read plus the reward
    and [last_ad_at] = now, whatever the store holds by then.  For every N,
    N reward requests served one after the other, each passing the cooldown,
    starting from balance 0, leave the balance at N times the reward (N for
    a reward of 1). *)
Theorem credit_reads_then_writes (uid : string) :
  let REWARD := default 10 (REWARD_PER_AD env) in
  let COOLDOWN := Number_ (default 10%Q (COOLDOWN_SEC env)) in
  (forall d u t d' now,
      users d !! uid = Some u ->
      let suspended := (resume None t (reward_ad env uid) d).1 in
      match cooldown_left now (last_ad_at u) COOLDOWN with
      | Some left_ => (resume None now suspended d').1 = json 429 (BCooldown left_)
      | None => exists k, (resume None now suspended d').1
                 = UsersUpdate uid {| p_balance := default 0 (balance u) + REWARD;
                                      p_last_ad_at := Some now |} k
      end)
  /\ (forall times d u,
        users d !! uid = Some u -> balance u = Some 0 ->
        spaced env (last_ad_at u) times ->
        exists u', users (credits env uid times d) !! uid = Some u'
          /\ balance u' = Some (Z.of_nat (length times) * REWARD)).
Proof.
  intros REWARD COOLDOWN. split.
  - intros d u t d' now Hu. unfold reward_ad. cbn [resume fst].
    rewrite (select_user_Some uid d u Hu). cbn [data mbind option_bind].
    fold COOLDOWN. destruct (cooldown_left _ _ _); [done|]. eauto.
  - intros times d u Hu Hb Hchain.
    destruct (credits_balance uid times d u Hu Hchain) as (u' & Hlook & Hbal & _).
    exists u'. split; [done|]. rewrite Hbal, Hb.
    destruct times; [done|]. f_equal.
Qed.

(** C3, amended.  With a non-negative reward and non-negative balances to
    start from, the balance of every user is non-negative after every
    sequence of arrivals, resumptions, store failures and clock ticks.  A
    debit tests amount_coins <= balance once, on the row it read, and is then
    suspended on the insert followed by an update that assigns the balance
    it read minus amount_coins, which is non-negative; the test is not
    repeated when the update is applied.  Two debits of 2000 against a
    balance of 2000 served one after the other give one success and one
    "insufficient balance", and leave the balance at 0. *)
Theorem balance_never_negative :
  0 <= default 10 (REWARD_PER_AD env) ->
  (forall b, default_balance = Some b -> 0 <= b) ->
  (forall w es, balances_ok (db w) -> threads w = [] -> balances_ok (db (exec env w es)))
  /\ (forall uid b t d u meth acct amount,
        users d !! uid = Some u ->
        method b = Some meth -> meth <> EmptyString ->
        account b = Some acct -> acct <> EmptyString ->
        amount_coins b = Some amount -> amount <> 0 ->
        admission env amount (balance u) = Accepted ->
        (resume None t (withdraw env uid b) d).1
        = WithdrawRequestsInsert uid meth acct amount
            (UsersUpdate uid {| p_balance := default 0 (balance u) - amount;
                                p_last_ad_at := None |} (fun _ => json 200 BOk))
        /\ 0 <= default 0 (balance u) - amount)
  /\ (forall uid b now d u meth acct,
        users d !! uid = Some u -> balance u = Some 2000 -> minCoins env <= 2000 ->
        method b = Some meth -> meth <> EmptyString ->
        account b = Some acct -> acct <> EmptyString ->
        amount_coins b = Some 2000 ->
        let first := run (withdraw env uid b) now d in
        let second := run (withdraw env uid b) now first.2 in
        first.1 = json 200 BOk
        /\ second.1 = json 400 (BError "insufficient balance")
        /\ balance <$> (users second.2 !! uid) = Some (Some 0)).
Proof.
  intros HR Hdef. split_and!.
  - intros w es Hd Ht. apply (exec_ok env HR Hdef w es). split; [done|].
    rewrite Ht. constructor.
  - intros uid b t d u meth acct amount Hu Hm Hm' Ha Ha' Hc Hc' Hadm.
    unfold withdraw, present. rewrite Hm, Ha, Hc. cbn [default from_option Datatypes.id].
    rewrite (proj2 (String.eqb_neq _ _) Hm'), (proj2 (String.eqb_neq _ _) Ha').
    rewrite (proj2 (Z.eqb_neq _ _) Hc'). cbn [negb orb resume fst].
    rewrite (select_user_Some uid d u Hu). cbn [data].
    rewrite admission_cases in Hadm.
    destruct (ToInt32 amount <? minCoins env); [done|].
    destruct (Z.ltb_spec (default 0 (balance u)) amount); [done|].
    split; [done | lia].
  - intros uid b now d u meth acct Hu Hb Hmin Hm Hm' Ha Ha' Hc first second.
    assert ((ToInt32 2000 <? minCoins env) = false) as Hge.
    { apply Z.ltb_ge. vm_compute. exact Hmin. }
    unfold second, first.
    rewrite (run_withdraw env uid b now d u meth acct 2000) by done.
    rewrite admission_cases, Hge, Hb.
    cbn [default from_option Datatypes.id fst snd Z.ltb Z.compare Pos.compare
         Pos.compare_cont].
    set (d1 := update_user _ _ _).
    assert (users d1 !! uid
            = Some (patch_user {| p_balance := 0; p_last_ad_at := None |} u)) as Hu1.
    { unfold d1. cbn [users update_user insert_withdraw_request].
      by rewrite lookup_alter_eq, Hu. }
    rewrite (run_withdraw env uid b now d1 _ meth acct 2000 Hu1) by done.
    rewrite admission_cases, Hge.
    cbn [patch_user balance p_balance default from_option Datatypes.id].
    cbn [Z.ltb Z.compare fst snd]. split_and!; [done | done |].
    by rewrite Hu1.
Qed.
End Sequential.

(** Walks a handler: one constructor per node, one case per test. *)
Ltac walk :=
  repeat first
    [ progress cbn [data sends_known_status writes_action confined reads_only status]
    | match goal with
      | |- always _ (match ?x with _ => _ end) => destruct x
      | |- always _ (if ?b then _ else _) => destruct b
      | |- always _ _ => constructor
      | |- within _ (match ?x with _ => _ end) => destruct x
      | |- within _ (if ?b then _ else _) => destruct b
      | |- within _ _ => constructor
      | |- forall _, _ => intros ?
      | |- _ ∈ _ => by repeat constructor
      | |- True => exact I
      | |- ?x = ?x => reflexivity
      end ].

(** ** Invariants of every schedule *)

Section Framework.
Context {platform : Platform} {store : Store} (env : Env).

Lemma always_here Q p : always Q p -> Q p.
Proof. by destruct 1. Qed.

Lemma always_resume Q failure now p d : always Q p -> always Q (resume failure now p d).1.
Proof.
  intros Hp. destruct Hp, failure; cbn [resume fst]; auto using always.
Qed.

Lemma always_impl (Q Q' : Prog -> Prop) p :
  (forall q, Q q -> Q' q) -> always Q p -> always Q' p.
Proof. intros HQ. induction 1; constructor; auto. Qed.

(** An invariant of the store that every resumption of a [Q]-handler keeps,
    for handlers that are [Q] for good, holds after every schedule. *)
Lemma exec_invariant (Q : Prog -> Prop) (I : Db -> Prop) :
  (forall now req, always Q (handle env now req)) ->
  (forall p failure now d, Q p -> I d -> I (resume failure now p d).2) ->
  forall es w, I (db w) -> Forall (always Q) (threads w) ->
    I (db (exec env w es)) /\ Forall (always Q) (threads (exec env w es)).
Proof.
  intros Hhandle Hresume. unfold exec.
  induction es as [|e es IH]; intros w HI HQ; [done|].
  cbn [foldl].
  assert (I (db (step env w e)) /\ Forall (always Q) (threads (step env w e))) as [HI' HQ'];
    [|by apply IH].
  destruct e as [ms|req|i failure]; cbn [step db threads].
  - done.
  - split; [done|]. apply Forall_app. split; [done|].
    constructor; [apply Hhandle | constructor].
  - destruct (threads w !! i) as [p|] eqn:Hp; [|done].
    pose proof (proj1 (Forall_lookup _ _) HQ i p Hp) as Hal.
    pose proof (Hresume p failure (clock w) (db w) (always_here _ _ Hal) HI).
    pose proof (always_resume Q failure (clock w) p (db w) Hal) as Hal'.
    destruct (resume _ _ _ _) as [p' d']. split; [done|].
    cbn [threads]. by apply Forall_insert.
Qed.
End Framework.

Section Schedules.
Context {platform : Platform} {store : Store} (env : Env).

Lemma handle_sends_known_status now req : always sends_known_status (handle env now req).
Proof.
  destruct req; cbn [handle]; unfold auth, post_auth, get_me, reward_ad, withdraw,
    admin_withdraw, json; walk.
Qed.

Lemma handle_writes_action now req : always writes_action (handle env now req).
Proof.
  destruct req; cbn [handle]; unfold auth, post_auth, get_me, reward_ad, withdraw, json;
    try walk.
  unfold admin_withdraw, json. destruct (bool_decide _); cbn [negb]; [|walk].
  case_bool_decide as Hact; cbn [negb]; [|walk].
  constructor; [exact Hact | walk].
Qed.

Lemma handle_within now req : within 5 (handle env now req).
Proof.
  destruct req; cbn [handle]; unfold auth, post_auth, get_me, reward_ad, withdraw,
    admin_withdraw, json; walk.
Qed.

Lemma always_True p : always (fun _ => True) p.
Proof. induction p; constructor; auto. Qed.

Lemma extends_refl d : extends d d.
Proof. split_and!; [done | done |]. intros i w Hw. by exists w. Qed.

Lemma extends_trans d1 d2 d3 : extends d1 d2 -> extends d2 d3 -> extends d1 d3.
Proof.
  intros (Hu & Ha & Hw) (Hu' & Ha' & Hw'). split_and!.
  - set_solver.
  - by etrans.
  - intros i w Hi. destruct (Hw i w Hi) as (w' & Hi' & E1 & E2 & E3 & E4 & E5).
    destruct (Hw' i w' Hi') as (w'' & Hi'' & F1 & F2 & F3 & F4 & F5).
    exists w''. split; [done|]. split_and!; congruence.
Qed.

Lemma resume_extends failure now p d : extends d (resume failure now p d).2.
Proof.
  destruct p as [r|e|k|u k|uid k|uid pt k|ev k|uid m a n k|rid st k], failure;
    cbn [resume snd]; try apply extends_refl.
  - unfold upsert_user. split_and!; cbn [users ad_events withdraw_requests]; [|done|].
    + rewrite dom_insert. set_solver.
    + intros i w Hw. by exists w.
  - unfold update_user. split_and!; cbn [users ad_events withdraw_requests]; [|done|].
    + by rewrite dom_alter.
    + intros i w Hw. by exists w.
  - unfold insert_ad_event. split_and!; cbn [users ad_events withdraw_requests]; [done| |].
    + by apply prefix_app_r.
    + intros i w Hw. by exists w.
  - unfold insert_withdraw_request.
    split_and!; cbn [users ad_events withdraw_requests]; [done|done|].
    intros i w Hw. exists w. split; [|done]. by apply lookup_app_l_Some.
  - unfold update_withdraw_request.
    split_and!; cbn [users ad_events withdraw_requests]; [done|done|].
    intros i w Hw. exists (set_status rid st w). rewrite list_lookup_fmap, Hw.
    split; [done|]. unfold set_status. by destruct (String.eqb _ _).
Qed.

(** X1. Whatever requests arrive and however their handlers interleave, with
    or without store failures, nothing is ever taken out of the store: every
    user row stays, the ad events only grow at the end, and every withdraw
    request keeps its place, id, user, method, account and amount (only its
    status can change). *)
Theorem store_only_grows (w : World) (es : list Event) :
  extends (db w) (db (exec env w es)).
Proof.
  apply (exec_invariant env (fun _ => True) (extends (db w))).
  - intros. apply always_True.
  - intros p failure now d _ Hd. eapply extends_trans; [exact Hd|]. apply resume_extends.
  - apply extends_refl.
  - apply Forall_forall. intros. apply always_True.
Qed.

Lemma resume_statuses_known failure now p d :
  writes_action p -> statuses_known d -> statuses_known (resume failure now p d).2.
Proof.
  intros Hp Hd. destruct p, failure; cbn [resume snd]; try done.
  - intros w. unfold insert_withdraw_request. cbn [withdraw_requests].
    rewrite elem_of_app, list_elem_of_singleton. intros [Hw| ->]; [by apply Hd|].
    cbn [wr_status]. unfold default_status. by repeat constructor.
  - intros w. unfold update_withdraw_request. cbn [withdraw_requests].
    intros (w0 & -> & Hw0)%list_elem_of_fmap. unfold set_status.
    destruct (String.eqb _ _); [|by apply Hd]. cbn [wr_status].
    cbn [writes_action] in Hp. apply elem_of_cons. right. exact Hp.
Qed.

(** X2. If every withdraw request has status "pending", "approve" or "reject"
    and no handler is in flight, this is still so after every schedule: rows
    are inserted as "pending" and the admin route writes only "approve" or
    "reject". *)
Theorem statuses_stay_known (w : World) (es : list Event) :
  statuses_known (db w) -> threads w = [] -> statuses_known (db (exec env w es)).
Proof.
  intros Hd Ht.
  apply (exec_invariant env writes_action statuses_known); try done.
  - apply handle_writes_action.
  - intros. by apply resume_statuses_known.
  - rewrite Ht. constructor.
Qed.

(** X3. Started with no handler in flight, every answer any handler ever
    sends has status 200, 400, 401, 403, 429 or 500. *)
Theorem only_known_status_codes (w : World) (es : list Event) (i : nat) (r : Response) :
  threads w = [] ->
  threads (exec env w es) !! i = Some (Respond r) ->
  status r ∈ [200; 400; 401; 403; 429; 500].
Proof.
  intros Ht Hi.
  destruct (exec_invariant env sends_known_status (fun _ => True)
              handle_sends_known_status (fun _ _ _ _ _ _ => I) es w I) as [_ Hall].
  { rewrite Ht. constructor. }
  apply (always_here sends_known_status (Respond r)).
  by eapply (proj1 (Forall_lookup _ _) Hall).
Qed.

Lemma within_resume n failure now p d :
  within (S n) p -> within n (resume failure now p d).1.
Proof.
  intros Hp. inversion Hp; subst; destruct failure; cbn [resume fst];
    auto using within.
Qed.

Lemma within_0 p : within 0 p -> finished p.
Proof. by inversion 1. Qed.

Lemma resumes_within n p steps :
  within n p -> length steps = n -> finished (resumes p steps).
Proof.
  unfold resumes. revert p steps. induction n as [|n IH]; intros p [|s steps] Hp Hl;
    try done; cbn [foldl].
  - by apply within_0.
  - apply IH; [by apply within_resume | by injection Hl].
Qed.

(** X4. Every handler has answered, or ended on an exception, after at most
    five resumptions, whatever the store holds and whether or not its calls
    fail: no route awaits more than five times (POST /api/reward/ad: select,
    new Date, update, insert, select). *)
Theorem handlers_end_within_five (now : Z) (req : Request)
    (steps : list (option string * Z * Db)) :
  length steps = 5%nat -> finished (resumes (handle env now req) steps).
Proof. apply resumes_within, handle_within. Qed.
End Schedules.

(** ** Whose rows a handler touches *)

Section Confinement.
Context {platform : Platform} {store : Store} (env : Env).

Lemma get_me_confined uid : always (confined uid) (get_me uid).
Proof. unfold get_me, json. walk. Qed.

Lemma reward_ad_confined uid : always (confined uid) (reward_ad env uid).
Proof. unfold reward_ad, json. walk. Qed.

Lemma withdraw_confined uid b : always (confined uid) (withdraw env uid b).
Proof. unfold withdraw, json. walk. Qed.

Lemma resume_confined uid failure now p d other :
  confined uid p -> other <> uid ->
  users (resume failure now p d).2 !! other = users d !! other.
Proof.
  intros Hp Hne. destruct p, failure; cbn [resume snd]; try done.
  cbn [confined] in Hp. subst. unfold update_user. cbn [users].
  by rewrite lookup_alter_ne.
Qed.

Lemma run_confined uid p now d other :
  always (confined uid) p -> other <> uid -> users (run p now d).2 !! other = users d !! other.
Proof.
  intros Hp Hne. revert d.
  induction Hp as [| |k HQ Hk IH|u k HQ Hk IH|u' k HQ Hk IH|u' q k HQ Hk IH
                   |ev k HQ Hk IH|? ? ? ? k HQ Hk IH|? ? k HQ Hk IH];
    intros d; cbn [run snd]; try done; rewrite IH; try done.
  cbn [confined] in HQ. subst. unfold update_user. cbn [users].
  by rewrite lookup_alter_ne.
Qed.

(** X5. The three routes behind [auth], run for the user [uid], never change
    the row of another user: neither when the handler runs alone, nor at any
    single resumption in an interleaving ([inv] holds of the handler from its
    start to its end). *)
Theorem bearer_changes_own_row_only (uid other : string) (b : WithdrawBody) (p : Prog) :
  p ∈ [get_me uid; reward_ad env uid; withdraw env uid b] ->
  other <> uid ->
  (forall now d, users (run p now d).2 !! other = users d !! other)
  /\ exists inv : Prog -> Prop,
       inv p
       /\ forall q failure t d, inv q ->
            inv (resume failure t q d).1
            /\ users (resume failure t q d).2 !! other = users d !! other.
Proof.
  intros Hp Hne.
  assert (always (confined uid) p) as Hal.
  { repeat (apply elem_of_cons in Hp as [->|Hp]);
      [apply get_me_confined | apply reward_ad_confined | apply withdraw_confined |].
    by apply elem_of_nil in Hp. }
  split.
  - intros now d. by apply (run_confined uid).
  - exists (always (confined uid)). split; [done|].
    intros q failure t d Hq. split; [by apply always_resume|].
    apply (resume_confined uid); [by apply always_here | done].
Qed.

Lemma resume_reads_only failure now p d : reads_only p -> (resume failure now p d).2 = d.
Proof. intros Hp. by destruct p, failure. Qed.

(** X6. GET /api/me answers 200 with the row of the caller, or 500 with the
    message of the store when there is no such row or the call fails, and
    never writes to the store. *)
Theorem me_reads_only (uid : string) (now : Z) (d : Db) :
  run (get_me uid) now d
    = (match users d !! uid with
       | Some u => json 200 (BUser u)
       | None => json 500 (BError single_no_rows)
       end, d)
  /\ (forall message t d', resume (Some message) t (get_me uid) d'
                           = (json 500 (BError message), d'))
  /\ exists inv : Prog -> Prop,
       inv (get_me uid)
       /\ forall q failure t d', inv q ->
            inv (resume failure t q d').1 /\ (resume failure t q d').2 = d'.
Proof.
  split_and!.
  - unfold get_me. cbn [run]. unfold select_user. by destruct (users d !! uid).
  - done.
  - exists (always reads_only). split.
    + unfold get_me, json. walk.
    + intros q failure t d' Hq. split; [by apply always_resume|].
      by apply resume_reads_only, always_here.
Qed.
End Confinement.

(** ** The identity a verified initData yields *)

Lemma bind_Normal {A B} (m : completion A) (f : A -> completion B) (b : B) :
  (a ← m; f a) = Normal b -> exists a, m = Normal a /\ f a = Normal b.
Proof. destruct m as [a|e]; [|done]. intros H. by exists a. Qed.

Lemma append_assoc (a b c : string) : (a +:+ b) +:+ c = a +:+ b +:+ c.
Proof.
  induction a as [|x a IH]; [done|].
  change (String x ((a +:+ b) +:+ c) = String x (a +:+ b +:+ c)). by rewrite IH.
Qed.

Lemma sort_sorted (l : list string) : StronglySorted str_le l -> sort l = l.
Proof.
  intros Hl. apply (StronglySorted_unique str_le); [|done|].
  - apply StronglySorted_merge_sort; apply _.
  - apply merge_sort_Permutation.
Qed.

Section Descriptor.
Context {platform : Platform} (env : Env).

Lemma identity_of_shape data u :
  identity_of data = Normal u ->
  email u = EmptyString
  /\ name u <> EmptyString
  /\ (username u = EmptyString \/ exists s, username u = "@" +:+ s).
Proof.
  unfold identity_of. intros H.
  do 7 (apply bind_Normal in H as (? & _ & H)).
  apply bind_Normal in H as (un & Hun & H). injection H as <-.
  cbn [email name username]. split_and!; [done| |].
  - by destruct (String.eqb _ _) eqn:E; [|apply String.eqb_neq in E].
  - destruct (truthy _); [|left; by injection Hun].
    right. apply bind_Normal in Hun as (s & _ & Hs). injection Hs as <-. by exists s.
Qed.

(** X7. An identity returned by verifyTelegramInitData has the empty email,
    a name that is not empty ('Guest' at least), and a username that is
    empty or starts with '@'. *)
Theorem identity_shape (initData : string) (u : Identity) :
  verifyTelegramInitData env initData = Normal (Some u) ->
  email u = EmptyString
  /\ name u <> EmptyString
  /\ (username u = EmptyString \/ exists s, username u = "@" +:+ s).
Proof.
  unfold verifyTelegramInitData, verifyEntries. case_decide; [|done].
  intros (u' & Hu & [= <-])%bind_Normal. by eapply identity_of_shape.
Qed.

(** X8. With a matching signature and a non-empty [user] field that is valid
    JSON: if it is [null], verifyTelegramInitData throws a TypeError (reading
    [user.id] of null); if it is a number, a string, a boolean or an array,
    it returns the identity of a guest, with id "undefined". *)
Theorem descriptor_not_an_object (initData text : string) (v : JsValue) :
  let fields := Object_fromEntries (URLSearchParams initData) in
  let data := obj_rest "hash" fields in
  obj_get "hash" fields = Some (signature env data) ->
  obj_get "user" data = Some text -> text <> EmptyString ->
  JSON_parse text = Some v ->
  match v with
  | JNull => verifyTelegramInitData env initData = Throw TypeError
  | JObj _ => True
  | _ => verifyTelegramInitData env initData = Normal (Some guest)
  end.
Proof.
  intros fields data Hh Hu Hne Hv.
  unfold verifyTelegramInitData, verifyEntries. fold fields data.
  rewrite decide_True by done. unfold identity_of.
  rewrite Hu, (proj2 (String.eqb_neq _ _) Hne), Hv. by destruct v.
Qed.

(** X9. The data check string does not separate a value from the next line:
    a single field whose value contains a line feed followed by [k'=v'] has
    the same data check string, and so the same signature, as the two fields
    [k=v] and [k'=v']. *)
Theorem line_feed_in_value (k v k' v' : string) :
  str_le k k' -> k <> k' ->
  dataCheckString [(k, v +:+ LF +:+ k' +:+ "=" +:+ v')]
  = dataCheckString [(k, v); (k', v')]
  /\ signature env [(k, v +:+ LF +:+ k' +:+ "=" +:+ v')]
     = signature env [(k, v); (k', v')].
Proof.
  intros Hle Hne.
  assert (dataCheckString [(k, v +:+ LF +:+ k' +:+ "=" +:+ v')]
          = dataCheckString [(k, v); (k', v')]) as E; [|by unfold signature; rewrite E].
  unfold dataCheckString, Object_keys. cbn [fmap list_fmap fst].
  rewrite (sort_sorted [k]), (sort_sorted [k; k']).
  - cbn [fmap list_fmap join obj_get]. rewrite !String.eqb_refl.
    rewrite (proj2 (String.eqb_neq k k') Hne). cbn [default from_option Datatypes.id].
    by rewrite !append_assoc.
  - repeat constructor. done.
  - repeat constructor.
Qed.
End Descriptor.

(** ** Sessions and refusals *)

Section Sessions.
Context {platform : Platform} {store : Store} (env : Env).

(** X10. POST /api/auth with a verified initData of a user who has no row
    creates that row, with the verified name, username and email, the default
    balance of the table and no last_ad_at, answers 200 with a token and the
    new row, and changes nothing else. *)
Theorem first_auth_creates_row (initData : string) (user : Identity) (now : Z) (d : Db) :
  initData <> EmptyString ->
  verifyTelegramInitData env initData = Normal (Some user) ->
  users d !! id user = None ->
  let r := run (post_auth env (Some initData)) now d in
  let row := {| u_name := name user; u_username := username user; u_email := email user;
                balance := default_balance; last_ad_at := None |} in
  r.1 = json 200 (BAuth (sign env now user) (Some row))
  /\ users r.2 = <[id user := row]> (users d)
  /\ ad_events r.2 = ad_events d
  /\ withdraw_requests r.2 = withdraw_requests d.
Proof.
  intros Hne Hv Hnone r row. unfold r, post_auth.
  destruct initData as [|a s]; [done|]. rewrite Hv. cbn [run].
  assert (upsert_user user d
          = {| users := <[id user := row]> (users d); ad_events := ad_events d;
               withdraw_requests := withdraw_requests d |}) as ->.
  { unfold upsert_user. by rewrite Hnone. }
  unfold select_user. cbn [users]. rewrite lookup_insert_eq. done.
Qed.

Lemma Bearer_token (t : string) :
  startsWith "Bearer " ("Bearer " +:+ t) = true /\ slice 7 ("Bearer " +:+ t) = t.
Proof.
  change ("Bearer " +:+ t)
    with (String "B" (String "e" (String "a" (String "r" (String "e" (String "r"
           (String " " t))))))).
  split; [|done]. unfold startsWith. cbn. by destruct t.
Qed.

(** X11. The token POST /api/auth answers with opens GET /api/me: as long as
    jwt.verify accepts it, and the store is as the auth left it, the answer is
    200 with the very profile the auth returned. *)
Theorem token_opens_profile (initData : string) (user : Identity) (now later : Z)
    (d : Db) (token : string) (profile : option User) :
  initData <> EmptyString ->
  verifyTelegramInitData env initData = Normal (Some user) ->
  let r := run (post_auth env (Some initData)) now d in
  r.1 = json 200 (BAuth token profile) ->
  jwt_verify (JWT_SECRET env) later (Some token) = Some (id user) ->
  exists row, profile = Some row
    /\ run (handle env later (GetMe (Some ("Bearer " +:+ token)))) later r.2
       = (json 200 (BUser row), r.2).
Proof.
  intros Hne Hv r. unfold r, post_auth.
  destruct initData as [|a s]; [done|]. rewrite Hv. cbn [run].
  set (d1 := upsert_user user d).
  assert (exists row, users d1 !! id user = Some row) as [row Hrow].
  { unfold d1, upsert_user. cbn [users]. rewrite lookup_insert_eq. eauto. }
  unfold select_user. rewrite Hrow. unfold json. cbn [run data fst snd].
  intros [= <- <-] Hjwt. exists row. split; [done|].
  cbn [handle]. unfold auth. cbn [default from_option Datatypes.id].
  destruct (Bearer_token (sign env now user)) as [-> ->]. rewrite Hjwt.
  unfold get_me. cbn [run]. unfold select_user. fold d1. by rewrite Hrow.
Qed.

(** X12. Without a header that starts with "Bearer " (jwt.verify of null
    throws), the three protected routes answer 401 "unauthorized" before any
    store call. *)
Theorem no_bearer_no_entry (now : Z) (authorization : option string) (b : WithdrawBody) :
  (forall t, jwt_verify (JWT_SECRET env) t None = None) ->
  startsWith "Bearer " (default EmptyString authorization) = false ->
  handle env now (GetMe authorization) = json 401 (BError "unauthorized")
  /\ handle env now (PostRewardAd authorization) = json 401 (BError "unauthorized")
  /\ handle env now (PostWithdraw authorization b) = json 401 (BError "unauthorized").
Proof.
  intros Hnone Hpre. cbn [handle]. unfold auth. by rewrite Hpre, Hnone.
Qed.

Lemma run_auth_unchanged now authorization next d :
  (forall uid, (forall r, (run (next uid) now d).1 = Respond r -> status r = 200
                          \/ (run (next uid) now d).2 = d)
               /\ (forall e, (run (next uid) now d).1 = Crash e -> (run (next uid) now d).2 = d)) ->
  (forall r, (run (auth env now authorization next) now d).1 = Respond r ->
             status r = 200 \/ (run (auth env now authorization next) now d).2 = d)
  /\ (forall e, (run (auth env now authorization next) now d).1 = Crash e ->
                (run (auth env now authorization next) now d).2 = d).
Proof.
  intros Hnext. unfold auth. destruct (jwt_verify _ _ _) as [uid|]; [apply Hnext|].
  split; intros; [by right | done].
Qed.

Lemma run_finished p now d : finished (run p now d).1.
Proof. revert d. induction p; intros d; cbn [run]; auto; done. Qed.

Ltac leaf := split; intros; [by right | done].

(** X13. A handler that runs alone, with no store failure, on any request:
    it ends with an answer or on an exception, and unless the answer is 200
    the store is exactly as it was. *)
Theorem refused_request_changes_nothing (req : Request) (now : Z) (d : Db) :
  let outcome := run (handle env now req) now d in
  match outcome.1 with
  | Respond r => status r = 200 \/ outcome.2 = d
  | Crash _ => outcome.2 = d
  | _ => False
  end.
Proof.
  cbn zeta.
  assert (forall p, (forall r, (run p now d).1 = Respond r ->
                               status r = 200 \/ (run p now d).2 = d)
                    /\ (forall e, (run p now d).1 = Crash e -> (run p now d).2 = d) ->
          match (run p now d).1 with
          | Respond r => status r = 200 \/ (run p now d).2 = d
          | Crash _ => (run p now d).2 = d
          | _ => False
          end) as Hsuff.
  { intros p [Hr Hc]. pose proof (run_finished p now d) as Hf.
    destruct (run p now d).1 as [r|e| | | | | | |] eqn:E; try done;
      [by apply Hr | by apply (Hc e)]. }
  apply Hsuff. destruct req; cbn [handle]; try apply run_auth_unchanged; try intros uid.
  - unfold post_auth. destruct initData as [[|a s]|]; try leaf.
    destruct (verifyTelegramInitData _ _) as [[u|]|e]; try leaf.
    cbn [run]. unfold select_user. cbn [users upsert_user]. rewrite lookup_insert_eq.
    split; [intros r [= <-]; by left | done].
  - unfold get_me. cbn [run]. destruct (select_user _ _); leaf.
  - unfold reward_ad. cbn [run]. destruct (select_user uid d) as [u|m] eqn:Hsel; cbn [data mbind option_bind].
    + destruct (cooldown_left _ _ _); [leaf|].
      cbn [run]. unfold select_user in *. destruct (users d !! uid) as [u0|] eqn:Hu; [|done].
      cbn [users insert_ad_event update_user]. rewrite lookup_alter_eq, Hu.
      split; [intros r [= <-]; by left | done].
    + cbn [cooldown_left run]. leaf.
  - unfold withdraw. destruct (_ || _); [leaf|].
    cbn [run]. destruct (_ <? _); [leaf|].
    destruct (select_user uid d) as [u|m]; cbn [data]; [|leaf].
    destruct (_ <? _); [leaf|].
    cbn [run]. split; [intros r [= <-]; by left | done].
  - unfold admin_withdraw. destruct (negb _); [leaf|].
    destruct (negb _); [leaf|].
    cbn [run]. split; [intros r [= <-]; by left | done].
  - split; [intros r [= <-]; by left | done].
Qed.
End Sessions.

(** ** Rewards, withdrawals and approvals, step by step *)

Section Movements.
Context {platform : Platform} {store : Store} (env : Env).

Lemma reward_ad_row uid now d u :
  users d !! uid = Some u ->
  cooldown_left now (last_ad_at u) (Number_ (default 10%Q (COOLDOWN_SEC env))) = None ->
  users (run (reward_ad env uid) now d).2 !! uid
  = Some {| u_name := u_name u; u_username := u_username u; u_email := u_email u;
            balance := Some (default 0 (balance u) + default 10 (REWARD_PER_AD env));
            last_ad_at := Some now |}.
Proof.
  intros Hu Hc. rewrite (run_reward_ad env uid now d u Hu), Hc.
  cbn [snd users insert_ad_event update_user]. by rewrite lookup_alter_eq, Hu.
Qed.

(** X14. A reward that passes the cooldown, run alone: the answer is 200 with
    the new balance and last_ad_at; the row of the user has its balance
    (0 when null) increased by REWARD_PER_AD and last_ad_at set to now, its
    other fields kept; one ad event is appended; nothing else changes. *)
Theorem reward_credits_once (uid : string) (now : Z) (d : Db) (u : User) :
  let REWARD := default 10 (REWARD_PER_AD env) in
  users d !! uid = Some u ->
  cooldown_left now (last_ad_at u) (Number_ (default 10%Q (COOLDOWN_SEC env))) = None ->
  let r := run (reward_ad env uid) now d in
  r.1 = json 200 (BBalance (Some (default 0 (balance u) + REWARD)) (Some now))
  /\ users r.2 !! uid
     = Some {| u_name := u_name u; u_username := u_username u; u_email := u_email u;
               balance := Some (default 0 (balance u) + REWARD);
               last_ad_at := Some now |}
  /\ (forall other, other <> uid -> users r.2 !! other = users d !! other)
  /\ ad_events r.2 = ad_events d ++ [ {| ae_user_id := uid; ae_reward := REWARD |} ]
  /\ withdraw_requests r.2 = withdraw_requests d.
Proof.
  intros REWARD Hu Hc r. unfold r. rewrite (run_reward_ad env uid now d u Hu), Hc.
  cbn [fst snd users ad_events withdraw_requests insert_ad_event update_user].
  split_and!; try done.
  - by rewrite lookup_alter_eq, Hu.
  - intros other Hne. by rewrite lookup_alter_ne.
Qed.

(** X15. With a cooldown of a whole number [c] of seconds (the default 10
    is one): after a reward credited at [now], a second request of the same
    user less than [c] seconds later is refused with 429 and changes nothing;
    [left] is [c] minus the whole seconds elapsed, which is at least 1 and
    not less than the time still to wait. *)
Theorem second_reward_waits (uid : string) (now later : Z) (d : Db) (u : User) (c : Z) :
  default 10%Q (COOLDOWN_SEC env) = inject_Z c -> - 10 ^ 12 <= c <= 10 ^ 12 ->
  - 2 ^ 53 < now < 2 ^ 53 -> - 2 ^ 53 < later < 2 ^ 53 ->
  - 10 ^ 15 <= later - now <= 10 ^ 15 ->
  users d !! uid = Some u ->
  cooldown_left now (last_ad_at u) (Number_ (inject_Z c)) = None ->
  later - now < 1000 * c ->
  let d1 := (run (reward_ad env uid) now d).2 in
  let left_ := c - (later - now) / 1000 in
  run (reward_ad env uid) later d1 = (json 429 (BCooldown (Finite false (inject_Z left_))), d1)
  /\ 1 <= left_
  /\ (inject_Z c - inject_Z (later - now) / 1000 <= inject_Z left_)%Q.
Proof.
  intros HC Hc Hnow Hlater Hms Hu Hpass Hlt d1 left_.
  rewrite <- HC in Hpass.
  pose proof (reward_ad_row uid now d u Hu Hpass) as Hrow.
  fold d1 in Hrow. rewrite (run_reward_ad env uid later d1 _ Hrow). cbn [last_ad_at].
  rewrite HC, (cooldown_left_whole_seconds c later now Hlater Hnow Hms Hc).
  rewrite (proj2 (Z.ltb_lt _ _) Hlt). split; [done|].
  unfold left_. rewrite <- Qceiling_whole_seconds. split.
  - rewrite Qceiling_whole_seconds.
    assert ((later - now) / 1000 < c); [|lia].
    apply Z.div_lt_upper_bound; lia.
  - apply Qle_ceiling.
Qed.

(** X16. If the balance update of a reward fails, the handler answers 500
    with the message of the store and ends: no ad event is recorded. *)
Theorem failed_update_records_nothing (uid message : string) (t now t' : Z)
    (d d' d'' : Db) (u : User) :
  users d !! uid = Some u ->
  cooldown_left now (last_ad_at u) (Number_ (default 10%Q (COOLDOWN_SEC env))) = None ->
  let after_read := (resume None t (reward_ad env uid) d).1 in
  let after_clock := (resume None now after_read d').1 in
  resume (Some message) t' after_clock d'' = (json 500 (BError message), d'').
Proof.
  intros Hu Hc. unfold reward_ad. cbn [resume fst]. rewrite (select_user_Some uid d u Hu).
  cbn [data mbind option_bind]. rewrite Hc. done.
Qed.

(** X17. With a valid token whose user has no row, POST /api/reward/ad ends
    on a TypeError without an answer (reading [user.balance] of null), and so
    does POST /api/withdraw unless the amount is under the minimum, which is
    answered 400; the store is unchanged. *)
Theorem missing_row_ends_without_answer (uid : string) (b : WithdrawBody) (now : Z) (d : Db) :
  users d !! uid = None ->
  run (reward_ad env uid) now d = (Crash TypeError, d)
  /\ (present (method b) = true -> present (account b) = true ->
      default 0 (amount_coins b) <> 0 ->
      run (withdraw env uid b) now d
      = (if ToInt32 (default 0 (amount_coins b)) <? minCoins env
         then json 400 (BError ("min " +:+ pretty (minCoins env) +:+ " coins"))
         else Crash TypeError, d)).
Proof.
  intros Hu. split.
  - unfold reward_ad. cbn [run]. unfold select_user. rewrite Hu. done.
  - intros Hm Ha Hc. unfold withdraw. rewrite Hm, Ha. apply Z.eqb_neq in Hc. rewrite Hc.
    cbn [negb orb run]. unfold select_user. rewrite Hu. cbn [data].
    by destruct (_ <? _).
Qed.

(** X18. A reward request served alone (no other handler in between), with
    a cooldown that is not negative and dates a [Date] can hold, does not
    move last_ad_at back: refused it leaves it, accepted it sets it to a
    time not before the old one. *)
Theorem last_ad_at_moves_forward (uid : string) (now : Z) (d : Db) (u : User) (l : Z) :
  (0 <= default 10%Q (COOLDOWN_SEC env))%Q ->
  - 2 ^ 53 < now < 2 ^ 53 -> - 2 ^ 53 < l < 2 ^ 53 ->
  users d !! uid = Some u -> last_ad_at u = Some l ->
  exists u' l', users (run (reward_ad env uid) now d).2 !! uid = Some u'
    /\ last_ad_at u' = Some l' /\ l <= l'.
Proof.
  intros HC Hnow Hl Hu Hlast. rewrite (run_reward_ad env uid now d u Hu), Hlast.
  destruct (cooldown_left _ _ _) as [left_|] eqn:E.
  - exists u, l. cbn [snd]. split_and!; [done | done | lia].
  - cbn [snd users insert_ad_event update_user]. rewrite lookup_alter_eq, Hu.
    eexists _, now. split_and!; [done | done |].
    destruct (Z.le_gt_cases l now) as [?|Hlt]; [done|]. exfalso.
    unfold cooldown_left in E.
    by rewrite (cooldown_left_before now l _ Hnow Hl Hlt HC) in E.
Qed.

(** X19. An accepted withdrawal, run alone: the answer is 200; the balance
    is decreased by the amount and stays at least 0; one request is appended
    to withdraw_requests with the user, method, account and amount of the
    body and status "pending"; nothing else changes. *)
Theorem withdraw_debits_once (uid : string) (b : WithdrawBody) (now : Z) (d : Db)
    (u : User) (meth acct : string) (amount : Z) :
  users d !! uid = Some u ->
  method b = Some meth -> meth <> EmptyString ->
  account b = Some acct -> acct <> EmptyString ->
  amount_coins b = Some amount -> amount <> 0 ->
  admission env amount (balance u) = Accepted ->
  let r := run (withdraw env uid b) now d in
  r.1 = json 200 BOk
  /\ users r.2 !! uid
     = Some {| u_name := u_name u; u_username := u_username u; u_email := u_email u;
               balance := Some (default 0 (balance u) - amount);
               last_ad_at := last_ad_at u |}
  /\ 0 <= default 0 (balance u) - amount
  /\ (forall other, other <> uid -> users r.2 !! other = users d !! other)
  /\ ad_events r.2 = ad_events d
  /\ withdraw_requests r.2
     = withdraw_requests d
       ++ [ {| wr_id := new_request_id (length (withdraw_requests d));
               wr_user_id := uid; wr_method := meth; wr_account := acct;
               wr_amount_coins := amount; wr_status := "pending" |} ].
Proof.
  intros Hu Hm Hm' Ha Ha' Hc Hc' Hadm r. unfold r.
  rewrite (run_withdraw env uid b now d u meth acct amount) by done. rewrite Hadm.
  cbn [fst snd users ad_events withdraw_requests insert_withdraw_request update_user].
  split_and!; try done.
  - by rewrite lookup_alter_eq, Hu.
  - rewrite admission_cases in Hadm. destruct (_ <? _); [done|].
    destruct (Z.ltb_spec (default 0 (balance u)) amount); [done | lia].
  - intros other Hne. by rewrite lookup_alter_ne.
Qed.

(** X20. An admin action on an id no withdraw request has is answered 200
    {ok: true} and changes nothing. *)
Theorem approval_of_unknown_id (rid action : string) (admin : option string)
    (now : Z) (d : Db) :
  default "undefined" admin ∈ adminIds env ->
  action ∈ ["approve"; "reject"] ->
  (forall w, w ∈ withdraw_requests d -> wr_id w <> rid) ->
  run (admin_withdraw env rid action admin) now d = (json 200 BOk, d).
Proof.
  intros Hadmin Haction Hnone. unfold admin_withdraw.
  rewrite !bool_decide_eq_true_2 by done. unfold json. cbn [negb run].
  f_equal. unfold update_withdraw_request. destruct d as [us evs ws].
  cbn [users ad_events withdraw_requests] in *. f_equal.
  induction ws as [|w ws IH]; [done|]. cbn [fmap list_fmap]. f_equal.
  - unfold set_status. rewrite (proj2 (String.eqb_neq _ _)); [done|].
    apply Hnone. by left.
  - apply IH. intros w' Hw'. apply Hnone. by right.
Qed.
End Movements.

(** ** Configuration *)

Lemma trimStart_idem s : trimStart (trimStart s) = trimStart s.
Proof.
  induction s as [|a s IH]; [done|]. cbn [trimStart].
  destruct (is_space a) eqn:E; [done|]. cbn [trimStart]. by rewrite E.
Qed.

Lemma trimStart_head s a r : trimStart s = String a r -> is_space a = false.
Proof.
  induction s as [|b s IH]; [done|]. cbn [trimStart].
  destruct (is_space b) eqn:E; [done|]. by intros [= <- <-].
Qed.

Lemma trimEnd_head a s : is_space a = false -> exists r, trimEnd (String a s) = String a r.
Proof.
  intros E. cbn [trimEnd]. destruct (trimEnd s); rewrite ?E; eauto.
Qed.

Lemma trimEnd_idem s : trimEnd (trimEnd s) = trimEnd s.
Proof.
  induction s as [|a s IH]; [done|]. cbn [trimEnd].
  destruct (trimEnd s) as [|b r] eqn:E.
  - destruct (is_space a) eqn:Ea; [done|]. cbn [trimEnd]. by rewrite Ea.
  - cbn [trimEnd]. cbn [trimEnd] in IH. by rewrite IH.
Qed.

Lemma trim_idem s : trim (trim s) = trim s.
Proof.
  unfold trim. destruct (trimStart s) as [|a r] eqn:E; [done|].
  destruct (trimEnd_head a r (trimStart_head s a r E)) as [r' Hr'].
  rewrite Hr'. cbn [trimStart]. rewrite (trimStart_head s a r E).
  rewrite <- Hr'. apply trimEnd_idem.
Qed.

Section Configuration.
Context {platform : Platform} {store : Store} (env : Env).

(** X21. The entries of ADMIN_IDS are compared trimmed, the caller is not: a
    caller id with white space around it is answered 403 whatever ADMIN_IDS
    holds. *)
Theorem admin_ids_are_trimmed (rid action caller : string) :
  (forall x, x ∈ adminIds env -> trim x = x)
  /\ (trim caller <> caller ->
      admin_withdraw env rid action (Some caller) = json 403 (BError "forbidden")).
Proof.
  assert (forall x, x ∈ adminIds env -> trim x = x) as Htrim.
  { intros x (y & -> & _)%list_elem_of_fmap. apply trim_idem. }
  split; [done|]. intros Hne. unfold admin_withdraw.
  rewrite bool_decide_eq_false_2; [done|]. intros Hin. by apply Hne, Htrim.
Qed.

(** X22. With ADMIN_IDS unset or empty the list of admins is [''], not
    empty: a request without [admin], or with any non-empty one, is answered
    403, but [?admin=] (the empty string) passes the admin test. *)
Theorem no_admin_configured (rid action : string) (admin : option string) :
  ADMIN_IDS env = None \/ ADMIN_IDS env = Some EmptyString ->
  adminIds env = [EmptyString]
  /\ (admin <> Some EmptyString ->
      admin_withdraw env rid action admin = json 403 (BError "forbidden"))
  /\ (admin = Some EmptyString -> action ∈ ["approve"; "reject"] ->
      admin_withdraw env rid action admin = WithdrawRequestsUpdate rid action (json 200 BOk)).
Proof.
  intros Henv.
  assert (adminIds env = [EmptyString]) as Hids.
  { unfold adminIds. by destruct Henv as [-> | ->]. }
  split; [done|]. unfold admin_withdraw. rewrite Hids. split.
  - intros Hne.
    assert (default "undefined" admin ∉ [EmptyString]) as Hn.
    { intros Hin%list_elem_of_singleton. destruct admin as [[|]|]; done. }
    by rewrite (bool_decide_eq_false_2 _ Hn).
  - intros -> Hact. cbn [default from_option Datatypes.id].
    assert (EmptyString ∈ [EmptyString]) as Hin by (by apply list_elem_of_singleton).
    by rewrite (bool_decide_eq_true_2 _ Hin), (bool_decide_eq_true_2 _ Hact).
Qed.
End Configuration.

(** X23. The CORS test: the allowed origins are the non-empty trimmed entries
    of ALLOWED_ORIGINS; a request without an Origin (or with an empty one) is
    always let through, one with an Origin exactly when it is allowed, so
    with ALLOWED_ORIGINS unset every request that names an Origin is
    refused. *)
Theorem cors_origin_test (ALLOWED_ORIGINS : option string) (o : string) :
  (o ∈ allowed ALLOWED_ORIGINS
   <-> o <> EmptyString
       /\ exists e, e ∈ split "," (default EmptyString ALLOWED_ORIGINS) /\ trim e = o)
  /\ (o ∈ allowed ALLOWED_ORIGINS -> trim o = o)
  /\ cors_origin ALLOWED_ORIGINS None = true
  /\ cors_origin ALLOWED_ORIGINS (Some EmptyString) = true
  /\ (o <> EmptyString ->
      cors_origin ALLOWED_ORIGINS (Some o) = true <-> o ∈ allowed ALLOWED_ORIGINS)
  /\ (o <> EmptyString -> cors_origin None (Some o) = false).
Proof.
  assert (o ∈ allowed ALLOWED_ORIGINS
          <-> o <> EmptyString
              /\ exists e, e ∈ split "," (default EmptyString ALLOWED_ORIGINS) /\ trim e = o)
    as Hiff.
  { unfold allowed. rewrite list_elem_of_filter, list_elem_of_fmap.
    split; [intros [Hne (e & -> & He)] | intros [Hne (e & He & <-)]];
      (split; [done | by exists e]). }
  split_and!; try done.
  - intros (_ & e & _ & <-)%Hiff. apply trim_idem.
  - intros Hne. unfold cors_origin, present.
    rewrite (proj2 (String.eqb_neq _ _) Hne). cbn [negb orb default from_option Datatypes.id].
    apply bool_decide_eq_true.
  - intros Hne. unfold cors_origin, present.
    rewrite (proj2 (String.eqb_neq _ _) Hne). cbn [negb orb].
    apply bool_decide_eq_false. intros Hin. by apply elem_of_nil in Hin.
Qed.

(** ** Closed examples *)

Import Demo.
#[local] Existing Instances Reference.platform Reference.store.

(** Closes a decidable proposition by evaluation. *)
Ltac by_evaluation :=
  match goal with |- ?P => apply (bool_decide_unpack P); vm_compute; exact I end.

Example verify_ann :
  verifyTelegramInitData env initData_ann
  = Normal (Some {| id := "42"; name := "Ann"; username := EmptyString;
                    email := EmptyString |}).
Proof. vm_compute. reflexivity. Qed.

(** C1 at two payloads: one without [hash], and [initData_ann], whose [hash]
    is the HMAC of its canonical string. *)
Lemma signature_check_witness :
  verifyTelegramInitData env "auth_date=1700000000" = Normal None
  /\ verifyTelegramInitData env initData_ann <> Normal None.
Proof.
  split.
  - apply (signature_check env "auth_date=1700000000"). reflexivity.
  - apply (signature_check env initData_ann). vm_compute. reflexivity.
Defined.

(** C7 at three fields presented in two orders. *)
Lemma canonicalization_order_independent_witness :
  let entries := [("user", "u"); ("auth_date", "1"); ("hash", "h")] in
  let entries' := [("hash", "h"); ("auth_date", "1"); ("user", "u")] in
  NoDup entries.*1
  /\ entries ≡ₚ entries'
  /\ dataCheckString (obj_rest "hash" (Object_fromEntries entries))
     = dataCheckString (obj_rest "hash" (Object_fromEntries entries')).
Proof.
  intros entries entries'.
  assert (NoDup entries.*1) as Hnd by by_evaluation.
  assert (entries ≡ₚ entries') as Hp by apply (Permutation_rev entries).
  split_and!; [done | done |].
  apply (canonicalization_order_independent env entries entries' Hnd Hp).
Defined.

(** With a repeated name [Object.fromEntries] keeps the last value, so the
    order of the two entries shows in the canonical string. *)
Example repeated_name_order_matters :
  dataCheckString (Object_fromEntries [("a", "1"); ("a", "2")]) = "a=2"
  /\ dataCheckString (Object_fromEntries [("a", "2"); ("a", "1")]) = "a=1".
Proof. split; reflexivity. Qed.

(** C4 as stated fails: the payload below carries the right signature and no
    user descriptor, and the verifier returns an identity whose id is the
    text "undefined" instead of failing. *)
Lemma missing_user_yields_identity :
  let initData := "hash=e270298a8eb4405ee0c22065f2edbc0c856fda66aed421fe57c3334748fb71c2" in
  let fields := Object_fromEntries (URLSearchParams initData) in
  obj_get "hash" fields = Some (signature env (obj_rest "hash" fields))
  /\ obj_get "user" (obj_rest "hash" fields) = None
  /\ verifyTelegramInitData env initData = Normal (Some guest)
  /\ forall e, verifyTelegramInitData env initData <> Throw e.
Proof. vm_compute. split_and!; try reflexivity. intros e; discriminate. Qed.

(** C4, amended, at two signed payloads: a user descriptor that is not JSON,
    and an empty one. *)
Lemma malformed_user_witness :
  verifyTelegramInitData env
    "hash=35fdfae01b392440a66e4fbb97b4efe8bc9a23c11a816e62615f33b30e77b3aa&user=%7B"
  = Throw SyntaxError
  /\ verifyTelegramInitData env
       "hash=eea564478eaec97df52502904c2e4d35ab4744d8c9ccda478e76b6de2211e22e&user="
     = Normal (Some guest).
Proof.
  split.
  - refine (proj1 (malformed_user env _ _) "{" _ _ _); vm_compute; try reflexivity.
    discriminate.
  - refine (proj2 (malformed_user env _ _) _ _); vm_compute; try reflexivity.
    by right.
Defined.

(** C5 five seconds after a reward, with the default cooldown. *)
Lemma cooldown_gate_witness :
  let d := {| users := {[ "42" := {| u_name := "Ann"; u_username := "@ann";
                                     u_email := EmptyString; balance := Some 10;
                                     last_ad_at := Some (t0 - 5000) |} ]};
              ad_events := []; withdraw_requests := [] |} in
  cooldown_left t0 (Some (t0 - 5000)) (Number_ 10) = Some (Finite false 5)
  /\ run (reward_ad env "42") t0 d = (json 429 (BCooldown (Finite false 5)), d).
Proof.
  intros d.
  destruct (cooldown_gate env t0 (Some (t0 - 5000)) 10) as (_ & _ & _ & H5 & _ & Hrun).
  assert (cooldown_left t0 (Some (t0 - 5000)) (Number_ 10) = Some (Finite false 5)) as H.
  { apply H5. by vm_compute. }
  split; [exact H|].
  apply (Hrun "42" d _ _ eq_refl eq_refl eq_refl H).
Defined.

(** C5 with a cooldown of 2.2 s, 1.2 s after a reward: the doubles of line 93
    give 2.2 - 1.2 = 1.0000000000000002, and the caller is told 2 seconds
    where the ceiling of cooldown - elapsed is 1. *)
Lemma fractional_cooldown_rounds_up :
  let cooldown := (22 # 10)%Q in
  let elapsed := (inject_Z (t0 - (t0 - 1200)) / 1000)%Q in
  Qceiling (cooldown - elapsed) = 1
  /\ cooldown_left t0 (Some (t0 - 1200)) (Number_ cooldown) = Some (Finite false 2)
  /\ run (reward_ad Cases.env_cooldown_2_2 "42") t0 (Cases.rewarded (t0 - 1200))
     = (json 429 (BCooldown (Finite false 2)), Cases.rewarded (t0 - 1200)).
Proof. by vm_compute. Qed.

(** C6 at the failing input: an amount of 3000 - 2^32 is below the minimum of
    2000, yet its 32-bit image 3000 passes the test of line 116, the balance
    test of line 117 holds for any negative amount, and the debit raises the
    balance from 0 to 4294964296. *)
Theorem negative_amount_accepted :
  let r := run (withdraw env "42" (withdraw_body (-4294964296))) t0 (db (world 0)) in
  minCoins env = 2000
  /\ ToInt32 (-4294964296) = 3000
  /\ admission env (-4294964296) (Some 0) = Accepted
  /\ r.1 = json 200 BOk
  /\ balance <$> (users r.2 !! "42") = Some (Some 4294964296).
Proof. vm_compute. done. Qed.

(** The admin test on the list of the demo configuration. *)
Example admin_list_gate_example :
  admin_withdraw env "1" "approve" (Some "999") = json 403 (BError "forbidden")
  /\ admin_withdraw env "1" "approve" None = json 403 (BError "forbidden")
  /\ admin_withdraw env "1" "delete" (Some "111") = json 400 (BError "bad action").
Proof.
  split_and!.
  - apply (admin_list_gate env "1" "approve" (Some "999")). by_evaluation.
  - apply (admin_list_gate env "1" "approve" None). by_evaluation.
  - apply (admin_list_gate env "1" "delete" (Some "111")); by_evaluation.
Qed.

(** C8 with no admin configured, and with the one admin 111 followed by a
    comma: [?admin=] turns an approved request into a rejected one. *)
Lemma empty_caller_passes_admin_gate_witness :
  let d := {| users := ∅; ad_events := []; withdraw_requests := [request "approve"] |} in
  let d' := {| users := ∅; ad_events := []; withdraw_requests := [request "reject"] |} in
  run (admin_withdraw Cases.env_without_admins "1" "reject" (Some EmptyString)) t0 d
  = (json 200 BOk, d')
  /\ run (admin_withdraw Cases.env_trailing_comma "1" "reject" (Some EmptyString)) t0 d
     = (json 200 BOk, d').
Proof.
  intros d d'. split.
  - refine (proj2 (empty_caller_passes_admin_gate Cases.env_without_admins "1" "reject" t0 d
                     _ _)); [by left | by_evaluation].
  - refine (proj2 (empty_caller_passes_admin_gate Cases.env_trailing_comma "1" "reject" t0 d
                     _ _)); [|by_evaluation].
    right. right. exists EmptyString. split; [by_evaluation | reflexivity].
Defined.

(** C9 on a request that is already approved: a later reject replaces the
    status. *)
Lemma approval_overwrites_status_witness :
  let d := {| users := ∅; ad_events := []; withdraw_requests := [request "approve"] |} in
  let r := run (admin_withdraw env "1" "reject" (Some "111")) t0 d in
  r.1 = json 200 BOk
  /\ exists w', withdraw_requests r.2 !! 0%nat = Some w' /\ wr_status w' = "reject".
Proof.
  intros d r.
  assert ("111" ∈ adminIds env) as Hadmin by by_evaluation.
  assert ("reject" ∈ ["approve"; "reject"]) as Haction by by_evaluation.
  destruct (approval_overwrites_status env "1" "reject" (Some "111") t0 d Hadmin Haction)
    as (Hok & _ & _ & _ & Hall).
  split; [exact Hok|].
  destruct (Hall 0%nat (request "approve") eq_refl) as (w' & Hw' & Hset & _).
  exists w'. split; [exact Hw'|]. by apply Hset.
Defined.

(** C10 for Ann, who holds 777 coins when she authenticates again. *)
Lemma auth_preserves_funds_witness :
  let r := run (post_auth env (Some initData_ann)) t0 (db (world 777)) in
  balance <$> (users r.2 !! "42") = Some (Some 777)
  /\ last_ad_at <$> (users r.2 !! "42") = Some None.
Proof.
  intros r.
  assert (initData_ann <> EmptyString) as Hne by discriminate.
  destruct (auth_preserves_funds env initData_ann _ t0 (db (world 777)) (ann 777)
              Hne verify_ann eq_refl) as (_ & Hnew & _).
  unfold r. cbn [id] in Hnew. rewrite Hnew. split; reflexivity.
Defined.

(** C2 as stated fails: two reward requests of one user, reward 1, balance 0.
    Both read the row before either writes; both are answered 200 and two ad
    events are recorded, and the balance is 1, not 2. *)
Lemma lost_update :
  let reward := PostRewardAd bearer in
  let w := exec env_reward_1 (world 0)
             [Arrive reward; Arrive reward;
              Resume 0 None; Resume 1 None; Resume 0 None; Resume 1 None;
              Resume 0 None; Resume 1 None; Resume 0 None; Resume 1 None;
              Resume 0 None; Resume 1 None] in
  threads w = [json 200 (BBalance (Some 1) (Some t0)); json 200 (BBalance (Some 1) (Some t0))]
  /\ ad_events (db w) = [ {| ae_user_id := "42"; ae_reward := 1 |};
                          {| ae_user_id := "42"; ae_reward := 1 |} ]
  /\ balance <$> (users (db w) !! "42") = Some (Some 1)
  /\ balance <$> (users (db w) !! "42") <> Some (Some 2).
Proof. vm_compute. split_and!; try reflexivity. discriminate. Qed.

(** C2, amended, for three rewards of 1 served ten seconds apart. *)
Lemma credit_reads_then_writes_witness :
  exists u', users (credits env_reward_1 "42" [t0; t0 + 10000; t0 + 20000] (db (world 0)))
               !! "42" = Some u'
    /\ balance u' = Some 3.
Proof.
  refine (proj2 (credit_reads_then_writes env_reward_1 "42")
            [t0; t0 + 10000; t0 + 20000] (db (world 0)) (ann 0) _ _ _).
  - reflexivity.
  - reflexivity.
  - vm_compute. tauto.
Defined.

(** C3 as stated fails: two debits of 2000 against a balance of 2000.  Both
    read the row before either writes; both are answered 200 and two
    requests of 2000 are recorded.  The balance ends at 0. *)
Lemma double_withdrawal :
  let w := exec env (world 2000)
             [Arrive withdraw_2000; Arrive withdraw_2000;
              Resume 0 None; Resume 1 None;
              Resume 0 None; Resume 0 None; Resume 1 None; Resume 1 None] in
  threads w = [json 200 BOk; json 200 BOk]
  /\ wr_amount_coins <$> withdraw_requests (db w) = [2000; 2000]
  /\ balance <$> (users (db w) !! "42") = Some (Some 0).
Proof. vm_compute. done. Qed.

(** C3, amended, for the same two debits served one after the other, and for
    the store after the interleaved schedule. *)
Lemma balance_never_negative_witness :
  let first := run (withdraw env "42" (withdraw_body 2000)) t0 (db (world 2000)) in
  let second := run (withdraw env "42" (withdraw_body 2000)) t0 first.2 in
  (first.1 = json 200 BOk
   /\ second.1 = json 400 (BError "insufficient balance")
   /\ balance <$> (users second.2 !! "42") = Some (Some 0))
  /\ balances_ok (db (exec env (world 2000)
                        [Arrive withdraw_2000; Arrive withdraw_2000;
                         Resume 0 None; Resume 1 None;
                         Resume 0 None; Resume 0 None; Resume 1 None; Resume 1 None])).
Proof.
  assert (0 <= default 10 (REWARD_PER_AD env)) as HR by (vm_compute; discriminate).
  assert (forall b, default_balance = Some b -> 0 <= b) as Hdef
    by (intros b [= <-]; lia).
  destruct (balance_never_negative env HR Hdef) as (Hinv & _ & Hseq).
  split.
  - apply (Hseq "42" (withdraw_body 2000) t0 (db (world 2000)) (ann 2000) "bkash" "017");
      try reflexivity; try discriminate.
  - apply Hinv; [|reflexivity].
    intros uid u Hu. unfold world in Hu. cbn [db users] in Hu.
    apply lookup_singleton_Some in Hu as [<- <-]. intros b [= <-]. lia.
Defined.
(** ** Closed examples of the further properties *)

Import Cases.

Lemma statuses_stay_known_witness :
  statuses_known (db (exec env (world 2000)
     (two_withdrawals ++ [Arrive (PostAdminWithdraw "1" "approve" (Some "111")); Resume 2 None]))).
Proof.
  apply (statuses_stay_known env (world 2000)); [|reflexivity].
  intros w Hw. by apply elem_of_nil in Hw.
Defined.

Lemma only_known_status_codes_witness :
  status {| status := 200; body := BOk |} ∈ [200; 400; 401; 403; 429; 500].
Proof.
  apply (only_known_status_codes env (world 2000) two_withdrawals 0); [reflexivity|].
  vm_compute. reflexivity.
Defined.

Lemma handlers_end_within_five_witness :
  finished (resumes (handle env t0 (PostRewardAd bearer))
              [(None, t0, db (world 0)); (None, t0, db (world 0));
               (Some "timeout", t0, db (world 0)); (None, t0, db (world 0));
               (None, t0, db (world 0))]).
Proof. apply (handlers_end_within_five env). reflexivity. Defined.

Lemma bearer_changes_own_row_only_witness :
  users (run (withdraw env "7" (withdraw_body 2000)) t0 (db (world 2000))).2 !! "42"
  = users (db (world 2000)) !! "42".
Proof.
  refine (proj1 (bearer_changes_own_row_only env "7" "42" (withdraw_body 2000) _ _ _) t0 _).
  - rewrite !elem_of_cons. right. right. by left.
  - discriminate.
Defined.

Lemma identity_shape_witness :
  email ann_identity = EmptyString
  /\ name ann_identity <> EmptyString
  /\ (username ann_identity = EmptyString \/ exists s, username ann_identity = "@" +:+ s).
Proof. apply (identity_shape env initData_ann). vm_compute. reflexivity. Defined.

Lemma descriptor_not_an_object_witness :
  verifyTelegramInitData env
    "hash=29316341390e00b6284add50325835ad03f2fa4b3d5df6a1c4b6e26d14b59c4d&user=null"
  = Throw TypeError
  /\ verifyTelegramInitData env
       "hash=cb2374f8626e3cc46c7bbbc23802a431fa07c280a7f3e689732f74676ac5f7f1&user=5"
     = Normal (Some guest).
Proof.
  split.
  - refine (descriptor_not_an_object env _ "null" JNull _ _ _ _);
      vm_compute; try reflexivity. discriminate.
  - refine (descriptor_not_an_object env _ "5" (JNum "5") _ _ _ _);
      vm_compute; try reflexivity. discriminate.
Defined.

Lemma line_feed_in_value_witness :
  dataCheckString [("auth_date", "1" +:+ LF +:+ "user" +:+ "=" +:+ "{}")]
  = dataCheckString [("auth_date", "1"); ("user", "{}")].
Proof.
  refine (proj1 (line_feed_in_value env "auth_date" "1" "user" "{}" _ _)).
  - reflexivity.
  - discriminate.
Defined.

Lemma first_auth_creates_row_witness :
  users (run (post_auth env (Some initData_ann)) t0 no_users).2
  = <[ "42" := {| u_name := "Ann"; u_username := EmptyString; u_email := EmptyString;
                  balance := Some 0; last_ad_at := None |} ]> ∅.
Proof.
  assert (initData_ann <> EmptyString) as Hne by discriminate.
  assert (verifyTelegramInitData env initData_ann = Normal (Some ann_identity)) as Hv
    by (vm_compute; reflexivity).
  exact (proj1 (proj2 (first_auth_creates_row env initData_ann ann_identity t0 no_users
                         Hne Hv eq_refl))).
Defined.

Lemma token_opens_profile_witness :
  let r := run (post_auth env (Some initData_ann)) t0 no_users in
  exists row,
    Some {| u_name := "Ann"; u_username := EmptyString; u_email := EmptyString;
            balance := Some 0; last_ad_at := None |} = Some row
    /\ run (handle env (t0 + 60000)
              (GetMe (Some ("Bearer " +:+ Reference.sign_token "s3cret" t0 "42"))))
           (t0 + 60000) r.2
       = (json 200 (BUser row), r.2).
Proof.
  assert (initData_ann <> EmptyString) as Hne by discriminate.
  assert (verifyTelegramInitData env initData_ann = Normal (Some ann_identity)) as Hv
    by (vm_compute; reflexivity).
  refine (token_opens_profile env initData_ann ann_identity t0 (t0 + 60000) no_users
            _ _ Hne Hv _ _).
  - vm_compute. reflexivity.
  - vm_compute. reflexivity.
Defined.

Lemma no_bearer_no_entry_witness :
  handle env t0 (GetMe (Some "Basic QWxhZGRpbg")) = json 401 (BError "unauthorized")
  /\ handle env t0 (PostRewardAd (Some "Basic QWxhZGRpbg")) = json 401 (BError "unauthorized")
  /\ handle env t0 (PostWithdraw (Some "Basic QWxhZGRpbg") (withdraw_body 2000))
     = json 401 (BError "unauthorized").
Proof. apply (no_bearer_no_entry env); [intros t|]; reflexivity. Defined.

Lemma reward_credits_once_witness :
  let r := run (reward_ad env "42") t0 (db (world 5)) in
  r.1 = json 200 (BBalance (Some 15) (Some t0))
  /\ ad_events r.2 = [ {| ae_user_id := "42"; ae_reward := 10 |} ].
Proof.
  destruct (reward_credits_once env "42" t0 (db (world 5)) (ann 5) eq_refl eq_refl)
    as (H1 & _ & _ & H4 & _).
  split; [exact H1 | exact H4].
Defined.

Lemma second_reward_waits_witness :
  let d1 := (run (reward_ad env "42") t0 (db (world 5))).2 in
  run (reward_ad env "42") (t0 + 2500) d1 = (json 429 (BCooldown (Finite false 8)), d1)
  /\ 1 <= 8
  /\ (10 - inject_Z (t0 + 2500 - t0) / 1000 <= 8)%Q.
Proof.
  apply (second_reward_waits env "42" t0 (t0 + 2500) (db (world 5)) (ann 5) 10);
    by vm_compute.
Defined.

Lemma failed_update_records_nothing_witness :
  let after_read := (resume None t0 (reward_ad env "42") (db (world 5))).1 in
  let after_clock := (resume None t0 after_read (db (world 5))).1 in
  resume (Some "timeout") t0 after_clock (db (world 5))
  = (json 500 (BError "timeout"), db (world 5)).
Proof.
  apply (failed_update_records_nothing env "42" "timeout" t0 t0 t0 _ _ _ (ann 5));
    reflexivity.
Defined.

Lemma missing_row_ends_without_answer_witness :
  run (reward_ad env "42") t0 no_users = (Crash TypeError, no_users)
  /\ run (withdraw env "42" (withdraw_body 2000)) t0 no_users = (Crash TypeError, no_users)
  /\ run (withdraw env "42" (withdraw_body 5)) t0 no_users
     = (json 400 (BError "min 2000 coins"), no_users).
Proof.
  split_and!.
  - apply (missing_row_ends_without_answer env "42" (withdraw_body 5) t0 no_users).
    reflexivity.
  - apply (missing_row_ends_without_answer env "42" (withdraw_body 2000) t0 no_users);
      try reflexivity. discriminate.
  - apply (missing_row_ends_without_answer env "42" (withdraw_body 5) t0 no_users);
      try reflexivity. discriminate.
Defined.

Lemma last_ad_at_moves_forward_witness :
  let d := (run (reward_ad env "42") t0 (db (world 5))).2 in
  exists u' l', users (run (reward_ad env "42") (t0 + 60000) d).2 !! "42" = Some u'
    /\ last_ad_at u' = Some l' /\ t0 <= l'.
Proof.
  intros d.
  refine (last_ad_at_moves_forward env "42" (t0 + 60000) d _ t0 _ _ _ _ _).
  - discriminate.
  - by vm_compute.
  - by vm_compute.
  - vm_compute. reflexivity.
  - reflexivity.
Defined.

Lemma withdraw_debits_once_witness :
  let r := run (withdraw env "42" (withdraw_body 2000)) t0 (db (world 2500)) in
  r.1 = json 200 BOk
  /\ balance <$> (users r.2 !! "42") = Some (Some 500)
  /\ wr_status <$> withdraw_requests r.2 = ["pending"].
Proof.
  destruct (withdraw_debits_once env "42" (withdraw_body 2000) t0 (db (world 2500))
              (ann 2500) "bkash" "017" 2000) as (H1 & H2 & _ & _ & _ & H6);
    try reflexivity; try discriminate.
  cbv zeta. rewrite H1, H2, H6. done.
Defined.

Lemma approval_of_unknown_id_witness :
  let d := {| users := ∅; ad_events := []; withdraw_requests := [request "pending"] |} in
  run (admin_withdraw env "2" "approve" (Some "111")) t0 d = (json 200 BOk, d).
Proof.
  intros d. apply (approval_of_unknown_id env "2" "approve" (Some "111") t0 d).
  - by_evaluation.
  - by_evaluation.
  - intros w ->%list_elem_of_singleton. discriminate.
Defined.

Lemma admin_ids_are_trimmed_witness :
  admin_withdraw env "1" "approve" (Some " 111") = json 403 (BError "forbidden").
Proof. apply (admin_ids_are_trimmed env "1" "approve" " 111"). discriminate. Defined.

Lemma no_admin_configured_witness :
  admin_withdraw env_without_admins "1" "approve" None = json 403 (BError "forbidden")
  /\ admin_withdraw env_without_admins "1" "approve" (Some EmptyString)
     = WithdrawRequestsUpdate "1" "approve" (json 200 BOk).
Proof.
  split.
  - apply (no_admin_configured env_without_admins "1" "approve" None);
      [by left | discriminate].
  - apply (no_admin_configured env_without_admins "1" "approve" (Some EmptyString));
      [by left | reflexivity | by_evaluation].
Defined.

Lemma cors_origin_test_witness :
  cors_origin (Some "https://a.example, https://b.example") (Some "https://b.example") = true
  /\ cors_origin None (Some "https://b.example") = false.
Proof.
  destruct (cors_origin_test (Some "https://a.example, https://b.example") "https://b.example")
    as (_ & _ & _ & _ & H & _).
  destruct (cors_origin_test None "https://b.example") as (_ & _ & _ & _ & _ & H').
  split.
  - apply H; [discriminate | by_evaluation].
  - apply H'. discriminate.
Defined.
